(** * pagination-wc: the pagination state machine of [PaginationWebComponent]

    A shallow embedding of [src/pagination-wc.js].  The component is one
    JavaScript object ([this]) plus the parts of the DOM it reads and writes:
    the inline [display] style of the slotted items, the [disabled] flag of
    the two navigation buttons, the page-number buttons it creates, the
    [display] style of the control strip, the two label spans, the width of
    the window, and the [pagechange] events it dispatches.

    Modelling choices.
    - A JavaScript number that holds a page number or an item index is a
      rational ([Q]): [goToPage] accepts any number, so [currentPage] and
      the indices derived from it need not be integers.  [===] on numbers is
      [Qeq_bool].  Numbers that are integers by construction
      ([itemsPerPage], [totalPages], [items.length], [innerWidth]) are [Z].
      The arithmetic is the exact one.  That is the arithmetic of the code
      where a double holds every result as it is: on comparisons, on
      [+ 1] and [- 1], on the quotient under [Math.ceil] for the length of
      an array, and on the product and the sum of [updateDisplay] at an
      integer page in range.  It is not at every other number: a statement
      about a page that need not be an integer, or about the text of an
      attribute, says which numbers it is about ([JS.exact_times],
      [JS.safe]).
    - A text is a [string], in UTF-8.
    - An element is a handle ([nat]); [this.items] is a list of handles and
      the elements' styles live in a store shared with the page
      ([hiddenItems]: the handles whose [style.display] is ["none"]).
    - A method is a function from the component to a completion and the
      component it leaves behind: a [TypeError] raised half-way keeps the
      writes made so far. *)

From Stdlib Require Import ZArith QArith Qround Qabs Lqa Lia Ascii String List Bool.
From stdpp Require Import base decidable option list gmap sets.
Import ListNotations.

#[local] Open Scope Z_scope.

(** ** JavaScript numbers and operators *)

Module JS.

(** [a < b] on numbers. *)
Definition lt (a b : Q) : bool := negb (Qle_bool b a).
(** [a <= b] on numbers. *)
Definition le (a b : Q) : bool := Qle_bool a b.
(** [a === b] on numbers. *)
Definition eq (a b : Q) : bool := Qeq_bool a b.

(** [x || d] on an integer-valued number: [0] (and [NaN], see [or_nan])
    is falsy. *)
Definition or_default (x d : Z) : Z := if x =? 0 then d else x.

(** [x || d] where [x] may be [NaN] ([None]). *)
Definition or_nan (x : option Z) (d : Z) : Z :=
  match x with
  | None => d
  | Some v => or_default v d
  end.

(** [s || d] on an attribute value: [null] and the empty string are
    falsy. *)
Definition or_text (s : option string) (d : string) : string :=
  match s with
  | None => d
  | Some EmptyString => d
  | Some t => t
  end.

(** [Math.ceil(a / b)] for integers [a] and [b <> 0]. *)
Definition ceil_div (a b : Z) : Z := Qceiling (inject_Z a / inject_Z b).

(** [Math.floor(a / 2)]. *)
Definition floor_half (a : Z) : Z := Qfloor (inject_Z a / (2 # 1)).

(** [Math.min]. *)
Definition min (a b : Q) : Q := if Qle_bool a b then a else b.

(** Is the number an integer? *)
Definition is_integer (q : Q) : bool := Qeq_bool q (inject_Z (Qfloor q)).

(** [arr[i]] for a number [i]: the element when [i] is an integer index
    inside the array, [undefined] ([None]) otherwise. *)
Definition index {A} (arr : list A) (i : Q) : option A :=
  if is_integer i && Qle_bool 0 i then arr !! Z.to_nat (Qfloor i) else None.

(** *** [parseInt(string)] with no radix *)

(** A [string] holds a text in UTF-8, as the string literals of this file
    do: a character of JavaScript is one, two or three bytes here.

    The white space that [parseInt] skips is [WhiteSpace] and
    [LineTerminator] of the language: TAB, LF, VT, FF, CR and the space
    (one byte each); U+00A0 (two bytes); U+1680, U+2000 to U+200A, U+2028,
    U+2029, U+202F, U+205F, U+3000 and U+FEFF (three bytes each). *)
Definition is_white (c : ascii) : bool :=
  let n := nat_of_ascii c in
  ((9 <=? n) && (n <=? 13))%nat || (n =? 32)%nat.

(** U+00A0 is [C2 A0]. *)
Definition is_white2 (c c1 : ascii) : bool :=
  ((nat_of_ascii c =? 194) && (nat_of_ascii c1 =? 160))%nat.

(** U+1680 is [E1 9A 80]; U+2000 to U+200A, U+2028, U+2029 and U+202F are
    [E2 80 80] to [E2 80 8A], [E2 80 A8], [E2 80 A9] and [E2 80 AF]; U+205F
    is [E2 81 9F]; U+3000 is [E3 80 80]; U+FEFF is [EF BB BF]. *)
Definition is_white3 (c c1 c2 : ascii) : bool :=
  let n := nat_of_ascii c in
  let n1 := nat_of_ascii c1 in
  let n2 := nat_of_ascii c2 in
  ((n =? 225) && (n1 =? 154) && (n2 =? 128)
   || (n =? 226) && (n1 =? 128)
      && ((128 <=? n2) && (n2 <=? 138) || (n2 =? 168) || (n2 =? 169)
          || (n2 =? 175))
   || (n =? 226) && (n1 =? 129) && (n2 =? 159)
   || (n =? 227) && (n1 =? 128) && (n2 =? 128)
   || (n =? 239) && (n1 =? 187) && (n2 =? 191))%nat.

Fixpoint skip_white (s : string) : string :=
  match s with
  | String c r =>
      if is_white c then skip_white r
      else if (nat_of_ascii c <? 128)%nat then s
      else
        match r with
        | String c1 r1 =>
            if is_white2 c c1 then skip_white r1
            else
              match r1 with
              | String c2 r2 =>
                  if is_white3 c c1 c2 then skip_white r2 else s
              | EmptyString => s
              end
        | EmptyString => s
        end
  | EmptyString => s
  end.

(** Value of a character as a digit of the given radix. *)
Definition digit_value (radix : Z) (c : ascii) : option Z :=
  let n := Z.of_nat (nat_of_ascii c) in
  let v :=
    if (48 <=? n) && (n <=? 57) then Some (n - 48)
    else if (97 <=? n) && (n <=? 122) then Some (n - 87)
    else if (65 <=? n) && (n <=? 90) then Some (n - 55)
    else None in
  match v with
  | Some d => if d <? radix then Some d else None
  | None => None
  end.

(** The longest prefix of digits, read as a number; [None] when it is
    empty. *)
Fixpoint digits (radix : Z) (s : string) (acc : option Z) : option Z :=
  match s with
  | String c r =>
      match digit_value radix c with
      | Some d => digits radix r (Some (radix * default 0 acc + d))
      | None => acc
      end
  | EmptyString => acc
  end.

(** [parseInt(input)]: [NaN] is [None], and a number is the integer that
    the digits denote.  That is the number [parseInt] returns as long as it
    is a safe integer (see [safe]); a longer text of digits [parseInt]
    rounds to a double, or to [Infinity], which this type does not hold. *)
Definition parseInt (input : string) : option Z :=
  let s := skip_white input in
  let '(sign, s) :=
    match s with
    | String "-" r => (-1, r)
    | String "+" r => (1, r)
    | _ => (1, s)
    end in
  let '(radix, s) :=
    match s with
    | String "0" (String "x" r) => (16, r)
    | String "0" (String "X" r) => (16, r)
    | _ => (10, s)
    end in
  match digits radix s None with
  | Some m => Some (sign * m)
  | None => None
  end.

(** The result of [parseInt] is [NaN] or a safe integer (at most [2 ^ 53]
    in absolute value): a double holds it as it is, and [parseInt] returns
    it with no rounding. *)
Definition safe (x : option Z) : bool :=
  match x with
  | Some v => Z.abs v <=? 2 ^ 53
  | None => true
  end.

(** The number [x] and its product with the integer [n] are numbers that a
    double holds as they are: in lowest terms [x] is [a / 2 ^ k] with
    [a] and [a * n] below [2 ^ 53] in absolute value.  For [1 <= x] the
    same is then true of [x - 1], of [(x - 1) * n] and of
    [(x - 1) * n + n], so the code computes them with no rounding. *)
Definition exact_times (x : Q) (n : Z) : bool :=
  let a := Qnum (Qred x) in
  let d := Z.pos (Qden (Qred x)) in
  (d =? 2 ^ Z.log2 d) && (Z.abs a <? 2 ^ 53) && (Z.abs (a * n) <? 2 ^ 53).

(** [ToString] of an attribute value: [null] reads as the text "null". *)
Definition to_string (v : option string) : string :=
  match v with
  | Some s => s
  | None => "null"
  end.

End JS.

(** ** The component and the DOM around it *)

(** [detail] of a [pagechange] event. *)
Record PageChange := {
  ev_currentPage : Q;
  ev_totalPages : Z;
  ev_itemsPerPage : Z;
  ev_startIndex : Q;
  ev_endIndex : Q
}.

(** A [button.page-number] of the numbers container: [dataset.page], the
    [active] class (with [aria-current]) and whether [style.display] is
    empty. *)
Record PageButton := {
  page : Z;
  active : bool;
  shown : bool
}.

Record Paginator := {
  (* configuration *)
  itemsPerPage : Z;
  prevText : string;
  nextText : string;
  (* internal state *)
  currentPage : Q;
  totalPages : Z;
  items : list nat;
  (* the DOM *)
  hiddenItems : gset nat;
  prevDisabled : bool;
  nextDisabled : bool;
  pageButtons : list PageButton;
  controlsShown : bool;
  prevLabel : string;
  nextLabel : string;
  innerWidth : Z;
  (* events dispatched so far, oldest first *)
  dispatched : list PageChange
}.

(** Field writes. *)
Definition set_itemsPerPage (v : Z) (s : Paginator) : Paginator :=
  {| itemsPerPage := v; prevText := prevText s; nextText := nextText s;
     currentPage := currentPage s; totalPages := totalPages s; items := items s;
     hiddenItems := hiddenItems s; prevDisabled := prevDisabled s;
     nextDisabled := nextDisabled s; pageButtons := pageButtons s;
     controlsShown := controlsShown s; prevLabel := prevLabel s;
     nextLabel := nextLabel s; innerWidth := innerWidth s;
     dispatched := dispatched s |}.

Definition set_prevText (v : string) (s : Paginator) : Paginator :=
  {| itemsPerPage := itemsPerPage s; prevText := v; nextText := nextText s;
     currentPage := currentPage s; totalPages := totalPages s; items := items s;
     hiddenItems := hiddenItems s; prevDisabled := prevDisabled s;
     nextDisabled := nextDisabled s; pageButtons := pageButtons s;
     controlsShown := controlsShown s; prevLabel := prevLabel s;
     nextLabel := nextLabel s; innerWidth := innerWidth s;
     dispatched := dispatched s |}.

Definition set_nextText (v : string) (s : Paginator) : Paginator :=
  {| itemsPerPage := itemsPerPage s; prevText := prevText s; nextText := v;
     currentPage := currentPage s; totalPages := totalPages s; items := items s;
     hiddenItems := hiddenItems s; prevDisabled := prevDisabled s;
     nextDisabled := nextDisabled s; pageButtons := pageButtons s;
     controlsShown := controlsShown s; prevLabel := prevLabel s;
     nextLabel := nextLabel s; innerWidth := innerWidth s;
     dispatched := dispatched s |}.

Definition set_currentPage (v : Q) (s : Paginator) : Paginator :=
  {| itemsPerPage := itemsPerPage s; prevText := prevText s; nextText := nextText s;
     currentPage := v; totalPages := totalPages s; items := items s;
     hiddenItems := hiddenItems s; prevDisabled := prevDisabled s;
     nextDisabled := nextDisabled s; pageButtons := pageButtons s;
     controlsShown := controlsShown s; prevLabel := prevLabel s;
     nextLabel := nextLabel s; innerWidth := innerWidth s;
     dispatched := dispatched s |}.

Definition set_totalPages (v : Z) (s : Paginator) : Paginator :=
  {| itemsPerPage := itemsPerPage s; prevText := prevText s; nextText := nextText s;
     currentPage := currentPage s; totalPages := v; items := items s;
     hiddenItems := hiddenItems s; prevDisabled := prevDisabled s;
     nextDisabled := nextDisabled s; pageButtons := pageButtons s;
     controlsShown := controlsShown s; prevLabel := prevLabel s;
     nextLabel := nextLabel s; innerWidth := innerWidth s;
     dispatched := dispatched s |}.

Definition set_items (v : list nat) (s : Paginator) : Paginator :=
  {| itemsPerPage := itemsPerPage s; prevText := prevText s; nextText := nextText s;
     currentPage := currentPage s; totalPages := totalPages s; items := v;
     hiddenItems := hiddenItems s; prevDisabled := prevDisabled s;
     nextDisabled := nextDisabled s; pageButtons := pageButtons s;
     controlsShown := controlsShown s; prevLabel := prevLabel s;
     nextLabel := nextLabel s; innerWidth := innerWidth s;
     dispatched := dispatched s |}.

Definition set_hiddenItems (v : gset nat) (s : Paginator) : Paginator :=
  {| itemsPerPage := itemsPerPage s; prevText := prevText s; nextText := nextText s;
     currentPage := currentPage s; totalPages := totalPages s; items := items s;
     hiddenItems := v; prevDisabled := prevDisabled s;
     nextDisabled := nextDisabled s; pageButtons := pageButtons s;
     controlsShown := controlsShown s; prevLabel := prevLabel s;
     nextLabel := nextLabel s; innerWidth := innerWidth s;
     dispatched := dispatched s |}.

Definition set_disabled (p n : bool) (s : Paginator) : Paginator :=
  {| itemsPerPage := itemsPerPage s; prevText := prevText s; nextText := nextText s;
     currentPage := currentPage s; totalPages := totalPages s; items := items s;
     hiddenItems := hiddenItems s; prevDisabled := p;
     nextDisabled := n; pageButtons := pageButtons s;
     controlsShown := controlsShown s; prevLabel := prevLabel s;
     nextLabel := nextLabel s; innerWidth := innerWidth s;
     dispatched := dispatched s |}.

Definition set_pageButtons (v : list PageButton) (s : Paginator) : Paginator :=
  {| itemsPerPage := itemsPerPage s; prevText := prevText s; nextText := nextText s;
     currentPage := currentPage s; totalPages := totalPages s; items := items s;
     hiddenItems := hiddenItems s; prevDisabled := prevDisabled s;
     nextDisabled := nextDisabled s; pageButtons := v;
     controlsShown := controlsShown s; prevLabel := prevLabel s;
     nextLabel := nextLabel s; innerWidth := innerWidth s;
     dispatched := dispatched s |}.

Definition set_controlsShown (v : bool) (s : Paginator) : Paginator :=
  {| itemsPerPage := itemsPerPage s; prevText := prevText s; nextText := nextText s;
     currentPage := currentPage s; totalPages := totalPages s; items := items s;
     hiddenItems := hiddenItems s; prevDisabled := prevDisabled s;
     nextDisabled := nextDisabled s; pageButtons := pageButtons s;
     controlsShown := v; prevLabel := prevLabel s;
     nextLabel := nextLabel s; innerWidth := innerWidth s;
     dispatched := dispatched s |}.

Definition set_labels (p n : string) (s : Paginator) : Paginator :=
  {| itemsPerPage := itemsPerPage s; prevText := prevText s; nextText := nextText s;
     currentPage := currentPage s; totalPages := totalPages s; items := items s;
     hiddenItems := hiddenItems s; prevDisabled := prevDisabled s;
     nextDisabled := nextDisabled s; pageButtons := pageButtons s;
     controlsShown := controlsShown s; prevLabel := p;
     nextLabel := n; innerWidth := innerWidth s;
     dispatched := dispatched s |}.

Definition set_innerWidth (v : Z) (s : Paginator) : Paginator :=
  {| itemsPerPage := itemsPerPage s; prevText := prevText s; nextText := nextText s;
     currentPage := currentPage s; totalPages := totalPages s; items := items s;
     hiddenItems := hiddenItems s; prevDisabled := prevDisabled s;
     nextDisabled := nextDisabled s; pageButtons := pageButtons s;
     controlsShown := controlsShown s; prevLabel := prevLabel s;
     nextLabel := nextLabel s; innerWidth := v;
     dispatched := dispatched s |}.

Definition dispatchEvent (e : PageChange) (s : Paginator) : Paginator :=
  {| itemsPerPage := itemsPerPage s; prevText := prevText s; nextText := nextText s;
     currentPage := currentPage s; totalPages := totalPages s; items := items s;
     hiddenItems := hiddenItems s; prevDisabled := prevDisabled s;
     nextDisabled := nextDisabled s; pageButtons := pageButtons s;
     controlsShown := controlsShown s; prevLabel := prevLabel s;
     nextLabel := nextLabel s; innerWidth := innerWidth s;
     dispatched := dispatched s ++ [e] |}.

(** ** Methods: state and exceptions *)

Inductive completion := Normal | Throw.

Definition Method := Paginator -> completion * Paginator.

(** A block of statements that cannot throw. *)
Definition run (f : Paginator -> Paginator) : Method := fun s => (Normal, f s).

(** [m1; m2]: an exception in [m1] skips [m2] and keeps [m1]'s writes. *)
Definition and_then (m1 m2 : Method) : Method :=
  fun s =>
    match m1 s with
    | (Normal, s') => m2 s'
    | (Throw, s') => (Throw, s')
    end.

(** [try { m } catch (error) { console.error(...) }]. *)
Definition try_catch (m : Method) : Method := fun s => (Normal, (m s).2).

Declare Scope method_scope.
Delimit Scope method_scope with method.
Notation "m1 ;; m2" := (and_then m1 m2)
  (at level 100, m2 at level 200, right associativity) : method_scope.

#[local] Open Scope method_scope.

(** ** The methods of [PaginationWebComponent] *)

(** What the constructor leaves: the defaults, and the template of
    [render] (control strip hidden, no page button, both navigation buttons
    enabled, labels from the default texts).  The width of the window and
    the styles of the elements of the page are the page's. *)
Definition constructor (width : Z) (hidden : gset nat) : Paginator :=
  {| itemsPerPage := 3; prevText := "Prev"; nextText := "Next";
     currentPage := 1; totalPages := 1; items := [];
     hiddenItems := hidden; prevDisabled := false; nextDisabled := false;
     pageButtons := []; controlsShown := false;
     prevLabel := "Prev"; nextLabel := "Next"; innerWidth := width;
     dispatched := [] |}.

(** [shouldShowPageNumber(pageNumber, displayCount)]; [pageNumber] is the
    [parseInt] of a button's [dataset.page]. *)
Definition shouldShowPageNumber (s : Paginator) (pageNumber displayCount : Z) : bool :=
  if (pageNumber =? 1) || (pageNumber =? totalPages s)
     || JS.eq (inject_Z pageNumber) (currentPage s)
  then true
  else
    let range := JS.floor_half displayCount in
    JS.le (Qabs (inject_Z pageNumber - currentPage s)) (inject_Z range).

(** [const displayCount = isMobile ? 3 : 5]. *)
Definition displayCount (s : Paginator) : Z :=
  let isMobile := innerWidth s <? 768 in
  if isMobile then 3 else 5.

Definition updatePaginationVisibility (s : Paginator) : Paginator :=
  let restyle button :=
    let shouldShow := shouldShowPageNumber s (page button) (displayCount s) in
    {| page := page button; active := active button; shown := shouldShow |} in
  set_pageButtons (restyle <$> pageButtons s) s.

(** One button for each [i] from [1] to [totalPages], none when
    [totalPages < 1]; a new button has an empty [style.display]. *)
Definition createPageNumbers (s : Paginator) : Paginator :=
  let button i :=
    {| page := i; active := JS.eq (inject_Z i) (currentPage s); shown := true |} in
  updatePaginationVisibility (set_pageButtons (button <$> seqZ 1 (totalPages s)) s).

Definition updateButtonStates (s : Paginator) : Paginator :=
  set_disabled (JS.eq (currentPage s) 1)
               (JS.eq (currentPage s) (inject_Z (totalPages s))) s.

Definition updateActivePageNumber (s : Paginator) : Paginator :=
  let toggle button :=
    let isActive := JS.eq (inject_Z (page button)) (currentPage s) in
    {| page := page button; active := isActive; shown := shown button |} in
  set_pageButtons (toggle <$> pageButtons s) s.

Definition updateButtonText (s : Paginator) : Paginator :=
  set_labels (prevText s) (nextText s) s.

(** [const startIndex = (this.currentPage - 1) * this.itemsPerPage]: the
    product as it is, which is what the code computes when a double holds
    it (see [JS.exact_times]). *)
Definition startIndex (s : Paginator) : Q :=
  ((currentPage s - 1) * inject_Z (itemsPerPage s))%Q.

(** [const endIndex = startIndex + this.itemsPerPage]. *)
Definition endIndex (s : Paginator) : Q :=
  (startIndex s + inject_Z (itemsPerPage s))%Q.

(** [this.items.forEach((item) => { item.style.display = "none"; })]. *)
Definition hideItems (s : Paginator) : Paginator :=
  set_hiddenItems (hiddenItems s ∪ list_to_set (items s)) s.

(** [for (let i = startIndex; i < endIndex && i < this.items.length; i++)
      this.items[i].style.display = "";]
    Reading [style] of [undefined] throws.  Each turn that does not throw is
    at an index of the array, so [S (length its)] turns of fuel are never
    used up ([showItems_fuel]). *)
Fixpoint showItems (fuel : nat) (i stop : Q) (its : list nat) (hidden : gset nat)
  : completion * gset nat :=
  match fuel with
  | O => (Normal, hidden)
  | S fuel' =>
      if JS.lt i stop && JS.lt i (inject_Z (Z.of_nat (length its))) then
        match JS.index its i with
        | Some item => showItems fuel' (i + 1)%Q stop its (hidden ∖ {[item]})
        | None => (Throw, hidden)
        end
      else (Normal, hidden)
  end.

Definition showPage : Method := fun s =>
  let '(c, hidden) :=
    showItems (S (length (items s))) (startIndex s) (endIndex s) (items s)
              (hiddenItems s) in
  (c, set_hiddenItems hidden s).

(** The [detail] of the event fired by [updateDisplay]. *)
Definition pageChange (s : Paginator) : PageChange :=
  {| ev_currentPage := currentPage s;
     ev_totalPages := totalPages s;
     ev_itemsPerPage := itemsPerPage s;
     ev_startIndex := startIndex s;
     ev_endIndex := JS.min (endIndex s) (inject_Z (Z.of_nat (length (items s)))) |}.

Definition updateDisplay : Method :=
  run hideItems ;;
  showPage ;;
  run updateButtonStates ;;
  run updateActivePageNumber ;;
  run updatePaginationVisibility ;;
  run (fun s => dispatchEvent (pageChange s) s).

(** [Math.ceil(this.items.length / this.itemsPerPage) || 1], then the clamp
    of [currentPage] from above.  [itemsPerPage] is never [0]: the
    constructor stores [3] and [attributeChangedCallback] stores
    [parseInt(..) || 3]. *)
Definition calculateTotalPages (s : Paginator) : Paginator :=
  let pages := JS.ceil_div (Z.of_nat (length (items s))) (itemsPerPage s) in
  let s := set_totalPages (JS.or_default pages 1) s in
  if JS.lt (inject_Z (totalPages s)) (currentPage s)
  then set_currentPage (inject_Z (totalPages s)) s
  else s.

Definition updatePagination : Method :=
  run calculateTotalPages ;;
  run createPageNumbers ;;
  updateDisplay ;;
  run (fun s => set_controlsShown (1 <? totalPages s) s).

(** What the page hands to [initializePagination]: the elements assigned to
    the [items] slot ([None] when the slot is not found) and the elements of
    the light DOM that carry [slot="items"]. *)
Record Slotted := {
  assignedElements : option (list nat);
  lightItems : list nat
}.

Definition discoverItems (dom : Slotted) : list nat :=
  match assignedElements dom with
  | None => []
  | Some assigned =>
      if (length assigned =? 0)%nat then lightItems dom else assigned
  end.

Definition initializePagination (dom : Slotted) : Method :=
  try_catch (
    run (set_items (discoverItems dom)) ;;
    run (fun s => if JS.lt (currentPage s) 1 then set_currentPage 1 s else s) ;;
    run calculateTotalPages ;;
    updatePagination).

Definition attributeChangedCallback
  (name : string) (oldValue newValue : option string) : Method :=
  if decide (oldValue = newValue) then run id
  else
    run (fun s =>
      if String.eqb name "items-per-page" then
        set_itemsPerPage (JS.or_nan (JS.parseInt (JS.to_string newValue)) 3) s
      else if String.eqb name "prev-text" then
        set_prevText (JS.or_text newValue "Prev") s
      else if String.eqb name "next-text" then
        set_nextText (JS.or_text newValue "Next") s
      else s) ;;
    updatePagination ;;
    run updateButtonText.

(** The timer set by [connectedCallback]. *)
Definition connectedCallback (dom : Slotted) : Method :=
  initializePagination dom ;; run updateButtonText.

(** *** The listeners installed by [setupEventListeners] *)

Definition prevBtn_click : Method := fun s =>
  if JS.lt 1 (currentPage s)
  then updateDisplay (set_currentPage (currentPage s - 1)%Q s)
  else (Normal, s).

Definition nextBtn_click : Method := fun s =>
  if JS.lt (currentPage s) (inject_Z (totalPages s))
  then updateDisplay (set_currentPage (currentPage s + 1)%Q s)
  else (Normal, s).

(** A click inside the numbers container whose target is the [k]-th page
    button; any other target does nothing. *)
Definition numbersContainer_click (k : nat) : Method := fun s =>
  match pageButtons s !! k with
  | Some target =>
      let pageNumber := inject_Z (page target) in
      if negb (JS.eq pageNumber (currentPage s))
      then updateDisplay (set_currentPage pageNumber s)
      else (Normal, s)
  | None => (Normal, s)
  end.

(** The window was resized to [width]. *)
Definition window_resize (width : Z) (s : Paginator) : Paginator :=
  updatePaginationVisibility (set_innerWidth width s).

(** *** The public API *)

Definition goToPage (pageNumber : Q) : Method := fun s =>
  if JS.le 1 pageNumber
     && JS.le pageNumber (inject_Z (totalPages s))
     && negb (JS.eq pageNumber (currentPage s))
  then updateDisplay (set_currentPage pageNumber s)
  else (Normal, s).

Definition refresh (dom : Slotted) : Method := initializePagination dom.


Definition getTotalPages (s : Paginator) : Z := totalPages s.

(** ** The transitions of the state machine *)

Inductive Transition :=
  | Reconfigure (name : string) (oldValue newValue : option string)
  | Refresh (dom : Slotted)
  | NavigateTo (pageNumber : Q)
  | NavigatePrev
  | NavigateNext
  | PageClick (k : nat)
  | ResizeSignal (width : Z).

Definition step (t : Transition) : Method :=
  match t with
  | Reconfigure name oldValue newValue => attributeChangedCallback name oldValue newValue
  | Refresh dom => refresh dom
  | NavigateTo pageNumber => goToPage pageNumber
  | NavigatePrev => prevBtn_click
  | NavigateNext => nextBtn_click
  | PageClick k => numbersContainer_click k
  | ResizeSignal width => run (window_resize width)
  end.

(** A sequence of transitions; an exception that escapes a callback is
    reported by the browser and the component goes on from where it is. *)
Definition exec (ts : list Transition) (s : Paginator) : Paginator :=
  foldl (fun s t => (step t s).2) s ts.

(** ** What the renderer shows *)

Record ViewModel := {
  visibleItemIndices : list nat;
  prevEnabled : bool;
  nextEnabled : bool;
  buttons : list PageButton;
  controlsVisible : bool
}.

Definition item_visible (s : Paginator) (i : nat) : Prop :=
  exists item, items s !! i = Some item /\ item ∉ hiddenItems s.

#[local] Instance item_visible_dec s i : Decision (item_visible s i).
Proof.
  unfold item_visible. destruct (items s !! i) as [item|].
  - destruct (decide (item ∈ hiddenItems s)) as [Hin|Hout].
    + right. intros (x & Hx & Hn). congruence.
    + left. eauto.
  - right. intros (x & Hx & _). discriminate.
Defined.

Definition viewModel (s : Paginator) : ViewModel :=
  {| visibleItemIndices := filter (item_visible s) (seq 0 (length (items s)));
     prevEnabled := negb (prevDisabled s);
     nextEnabled := negb (nextDisabled s);
     buttons := pageButtons s;
     controlsVisible := controlsShown s |}.

(** The pages whose button is displayed. *)
Definition visiblePages (s : Paginator) : list Z :=
  page <$> filter (fun b => shown b = true) (pageButtons s).

(** ** Notions the statements use *)

(** The fields of the component itself and the width of the window: what
    the display reads and never writes. *)
Definition core (s : Paginator) : Z * string * string * Q * Z * list nat * Z :=
  (itemsPerPage s, prevText s, nextText s, currentPage s, totalPages s,
   items s, innerWidth s).

(** Everything the component draws, events apart. *)
Definition rendered (s : Paginator)
  : gset nat * bool * bool * list PageButton * bool * string * string :=
  (hiddenItems s, prevDisabled s, nextDisabled s, pageButtons s,
   controlsShown s, prevLabel s, nextLabel s).

(** What the range of the page depends on. *)
Definition paging (s : Paginator) : Z * Q * Z * list Z :=
  (itemsPerPage s, currentPage s, totalPages s, page <$> pageButtons s).

(** [Math.ceil(its.length / this.itemsPerPage) || 1]. *)
Definition pageCount (s : Paginator) (its : list nat) : Z :=
  JS.or_default (JS.ceil_div (Z.of_nat (length its)) (itemsPerPage s)) 1.

(** The current page after the two clamps of [initializePagination]: up to
    1, then down to the page count. *)
Definition clampPage (cp : Q) (pages : Z) : Q :=
  let low := if JS.lt cp 1 then 1%Q else cp in
  if JS.lt (inject_Z pages) low then inject_Z pages else low.

(** The end of [updatePagination]: the display, then the control strip
    unless the display threw. *)
Definition settle (s : Paginator) : Paginator :=
  match updateDisplay s with
  | (Normal, s') => set_controlsShown (1 <? totalPages s') s'
  | (Throw, s') => s'
  end.

(** The component as [initializePagination] hands it to the display:
    the new items, the page count, the clamped page and new page buttons. *)
Definition prepare (its : list nat) (s : Paginator) : Paginator :=
  createPageNumbers
    (set_currentPage (clampPage (currentPage s) (pageCount s its))
       (set_totalPages (pageCount s its) (set_items its s))).

(** The item at index [j] belongs to the slice of page [p]. *)
Definition on_page (perPage p : Z) (j : nat) : Prop :=
  (p - 1) * perPage <= Z.of_nat j < (p - 1) * perPage + perPage.

#[local] Instance on_page_dec perPage p j : Decision (on_page perPage p j).
Proof. unfold on_page. apply _. Defined.

(** [currentPage] is an integer between 1 and [totalPages]. *)
Definition page_in_range (s : Paginator) : Prop :=
  exists c : Z, (currentPage s == inject_Z c)%Q /\ 1 <= c <= totalPages s.

(** The invariant of the state machine: a positive page size, the page in
    range, and page buttons only for pages in range. *)
Definition well_paged (s : Paginator) : Prop :=
  0 < itemsPerPage s
  /\ page_in_range s
  /\ Forall (fun n => 1 <= n <= totalPages s) (page <$> pageButtons s).

(** A transition whose input is in the documented domain: [goToPage] is
    given an integer, and an [items-per-page] value parses to [NaN] or to
    an integer from 0 to [2 ^ 53]: not to a negative number, and not to a
    number that [parseInt] would round. *)
Definition in_domain (t : Transition) : bool :=
  match t with
  | NavigateTo pageNumber => JS.is_integer pageNumber
  | Reconfigure name _ newValue =>
      if String.eqb name "items-per-page"
      then JS.safe (JS.parseInt (JS.to_string newValue))
           && (0 <=? JS.or_nan (JS.parseInt (JS.to_string newValue)) 3)
      else true
  | _ => true
  end.

(** ** The display in step with the current page *)

(** The button drawn for page [i] when the current page is [c]. *)
Definition drawn_button (s : Paginator) (c i : Z) : PageButton :=
  {| page := i;
     active := (i =? c);
     shown := shouldShowPageNumber s i (displayCount s) |}.

(** The DOM shows page [c]: one button for each page, the one of [c] active
    and each displayed as the window says; the previous button disabled on
    the first page and the next button on the last; of the items of the
    component, exactly those of the slice of page [c] not hidden. *)
Definition drawn (s : Paginator) (c : Z) : Prop :=
  pageButtons s = drawn_button s c <$> seqZ 1 (totalPages s)
  /\ prevDisabled s = (c =? 1)
  /\ nextDisabled s = (c =? totalPages s)
  /\ forall h, h ∈ items s ->
       (h ∈ hiddenItems s <->
        ~ exists j, items s !! j = Some h /\ on_page (itemsPerPage s) c j).

(** The component and its DOM are in step: the page size is positive, the
    page count is the one of the items, the control strip is shown exactly
    when there is more than one page, and the DOM shows the current page,
    an integer in range. *)
Definition consistent (s : Paginator) : Prop :=
  0 < itemsPerPage s
  /\ totalPages s = pageCount s (items s)
  /\ controlsShown s = (1 <? totalPages s)
  /\ exists c : Z,
       (currentPage s == inject_Z c)%Q /\ 1 <= c <= totalPages s /\ drawn s c.

(** A [detail] that describes a page: an integer page in range of a
    positive size, starting at [(currentPage - 1) * itemsPerPage] and ending
    no earlier than it starts and at most [itemsPerPage] later. *)
Definition describes_a_page (e : PageChange) : Prop :=
  0 < ev_itemsPerPage e
  /\ (exists c : Z, (ev_currentPage e == inject_Z c)%Q
                    /\ 1 <= c <= ev_totalPages e)
  /\ (ev_startIndex e == (ev_currentPage e - 1) * inject_Z (ev_itemsPerPage e))%Q
  /\ (ev_startIndex e <= ev_endIndex e)%Q
  /\ (ev_endIndex e <= ev_startIndex e + inject_Z (ev_itemsPerPage e))%Q.

(** What [updatePagination] and [initializePagination] need to put
    everything in step: a positive page size, an integer page of at least 1,
    and events that describe pages. *)
Definition ready (s : Paginator) : Prop :=
  0 < itemsPerPage s
  /\ (exists c : Z, (currentPage s == inject_Z c)%Q /\ 1 <= c)
  /\ Forall describes_a_page (dispatched s).

(** The component with the attribute stored, before [updatePagination]. *)
Definition configured (name : string) (newValue : option string) (s : Paginator)
  : Paginator :=
  if String.eqb name "items-per-page" then
    set_itemsPerPage (JS.or_nan (JS.parseInt (JS.to_string newValue)) 3) s
  else if String.eqb name "prev-text" then
    set_prevText (JS.or_text newValue "Prev") s
  else if String.eqb name "next-text" then
    set_nextText (JS.or_text newValue "Next") s
  else s.

(** Everything is in step: the component and its DOM, the labels of the
    two navigation buttons with the configured texts, and every event fired
    so far with a page. *)
Definition settled (s : Paginator) : Prop :=
  consistent s
  /\ (prevLabel s, nextLabel s) = (prevText s, nextText s)
  /\ Forall describes_a_page (dispatched s).

(** The component as the constructor leaves it, for some width of the
    window and some styles of the elements of the page. *)
Definition pristine (s : Paginator) : Prop :=
  exists width hidden, s = constructor width hidden.

(** ** A page number as the text of [dataset.page] *)

(** The character of a decimal digit. *)
Definition digit_char (d : Z) : ascii := ascii_of_nat (48 + Z.to_nat d).

(** The decimal digits of [n >= 0] in front of [acc], the last digit
    first; [fuel] bounds the number of digits after the first one. *)
Fixpoint decimal (fuel : nat) (n : Z) (acc : string) : string :=
  let acc' := String (digit_char (n mod 10)) acc in
  match fuel with
  | O => acc'
  | S fuel' => if n <? 10 then acc' else decimal fuel' (n / 10) acc'
  end.

(** [String(n)] for an integer [n]: what [button.dataset.page = i] stores
    and [button.textContent = i] shows.  It is the plain decimal text, as
    JavaScript gives it for a safe integer (up to [2 ^ 53] in absolute
    value). *)
Definition Number_toString (n : Z) : string :=
  if n <? 0 then String "-" (decimal (Z.to_nat (Z.log2 (- n))) (- n) "")
  else decimal (Z.to_nat (Z.log2 n)) n "".

(** ** Example pages *)

(** Ten slotted items, handles [0] to [9]. *)
Definition ten_items : Slotted :=
  {| assignedElements := Some (seq 0 10); lightItems := [] |}.

(** The component on a wide window once it is connected to ten items:
    three per page, four pages, page 1. *)
Definition ten_by_three : Paginator :=
  (connectedCallback ten_items (constructor 1024 ∅)).2.

(** Thirty items on a narrow window (three page buttons around the current
    one): ten pages. *)
Definition thirty_narrow : Paginator :=
  (connectedCallback {| assignedElements := Some (seq 0 30); lightItems := [] |}
                     (constructor 500 ∅)).2.

(** * Properties *)

(** ** Facts about the JavaScript operators *)

Section Operators.

Lemma lt_iff (a b : Q) : JS.lt a b = true <-> (a < b)%Q.
Proof.
  unfold JS.lt. rewrite negb_true_iff. split.
  - intros H. apply Qnot_le_lt. intros Hle.
    apply Qle_bool_iff in Hle. congruence.
  - intros H. destruct (Qle_bool b a) eqn:E; [|reflexivity].
    apply Qle_bool_iff in E. exfalso. revert E. now apply Qlt_not_le.
Qed.

Lemma lt_false_iff (a b : Q) : JS.lt a b = false <-> (b <= a)%Q.
Proof.
  unfold JS.lt. rewrite negb_false_iff. apply Qle_bool_iff.
Qed.

Lemma le_iff (a b : Q) : JS.le a b = true <-> (a <= b)%Q.
Proof. apply Qle_bool_iff. Qed.

Lemma eq_iff (a b : Q) : JS.eq a b = true <-> (a == b)%Q.
Proof. apply Qeq_bool_iff. Qed.

Lemma eq_false_iff (a b : Q) : JS.eq a b = false <-> ~ (a == b)%Q.
Proof.
  rewrite <- eq_iff. destruct (JS.eq a b); split; congruence.
Qed.

Lemma eq_inject (a b : Z) : JS.eq (inject_Z a) (inject_Z b) = (a =? b).
Proof.
  destruct (Z.eqb_spec a b) as [->|Hne].
  - apply eq_iff. reflexivity.
  - apply eq_false_iff. intros H. apply Hne. now apply inject_Z_injective.
Qed.

Lemma one_le_inject (p : Z) : (1 <= inject_Z p)%Q <-> 1 <= p.
Proof. unfold Qle. simpl. lia. Qed.

Lemma inject_pos (z : Z) : (0 < inject_Z z)%Q <-> 0 < z.
Proof. unfold Qlt. simpl. lia. Qed.

(** [Math.floor(a / 2)] is the integer quotient. *)
Lemma floor_half_div (a : Z) : JS.floor_half a = a / 2.
Proof.
  unfold JS.floor_half, Qfloor. simpl. now rewrite Z.mul_1_r.
Qed.

(** [Math.ceil(a / b)] for a positive divisor. *)
Lemma ceil_div_pos (a b : Z) : 0 < b -> JS.ceil_div a b = - ((- a) / b).
Proof.
  intros Hb. destruct b as [|b|b]; try lia.
  unfold JS.ceil_div, Qceiling, Qfloor. simpl.
  rewrite Z.mul_1_r. reflexivity.
Qed.

(** The ceiling is the least [q] with [a <= b * q]. *)
Lemma ceil_div_spec (a b : Z) :
  0 < b -> b * (JS.ceil_div a b - 1) < a <= b * JS.ceil_div a b.
Proof.
  intros Hb. rewrite ceil_div_pos by assumption.
  pose proof (Z.div_mod (- a) b) as Hdm.
  pose proof (Z.mod_pos_bound (- a) b Hb) as Hm.
  nia.
Qed.

Lemma is_integer_iff (q : Q) :
  JS.is_integer q = true <-> exists z : Z, (q == inject_Z z)%Q.
Proof.
  unfold JS.is_integer. rewrite eq_iff. split.
  - intros H. eauto.
  - intros [z Hz]. rewrite Hz at 1. rewrite Hz, Qfloor_Z. reflexivity.
Qed.

(** [arr[i]] at an integer. *)
Lemma index_integer {A} (arr : list A) (i : Q) (z : Z) :
  (i == inject_Z z)%Q ->
  JS.index arr i = if 0 <=? z then arr !! Z.to_nat z else None.
Proof.
  intros Hz. unfold JS.index.
  assert (JS.is_integer i = true) as -> by (apply is_integer_iff; eauto).
  assert (Qfloor i = z) as -> by (rewrite Hz; apply Qfloor_Z).
  simpl. destruct (Z.leb_spec 0 z) as [Hle|Hlt].
  - assert (Qle_bool 0 i = true) as ->; [|reflexivity].
    apply Qle_bool_iff. rewrite Hz. unfold Qle. simpl. lia.
  - destruct (Qle_bool 0 i) eqn:E; [|reflexivity].
    apply Qle_bool_iff in E. rewrite Hz in E. unfold Qle in E. simpl in E. lia.
Qed.


End Operators.

(** ** The loop that shows the items of the page *)

Section ShowItems.

Variables (its : list nat) (stop : Q).

(** The test of the loop fails at once: nothing is shown. *)
Lemma showItems_skip fuel i hid :
  JS.lt i stop && JS.lt i (inject_Z (Z.of_nat (length its))) = false ->
  showItems fuel i stop its hid = (Normal, hid).
Proof. intros H. destruct fuel; simpl; [reflexivity | now rewrite H]. Qed.

(** The loop is entered at something that is not an index: it throws
    before it shows anything. *)
Lemma showItems_throw fuel i hid :
  JS.lt i stop && JS.lt i (inject_Z (Z.of_nat (length its))) = true ->
  JS.index its i = None ->
  showItems (S fuel) i stop its hid = (Throw, hid).
Proof. intros Ht Hi. simpl. now rewrite Ht, Hi. Qed.

(** From an index [k] on, the loop shows the items at the indices below
    [stop] and completes, whenever the fuel covers the rest of the
    array. *)
Lemma showItems_from_index fuel : forall (k : nat) (i : Q) (hid : gset nat),
  (i == inject_Z (Z.of_nat k))%Q ->
  (length its < fuel + k)%nat ->
  exists T : gset nat,
    showItems fuel i stop its hid = (Normal, hid ∖ T)
    /\ forall h, h ∈ T <->
         exists j, (k <= j)%nat /\ (inject_Z (Z.of_nat j) < stop)%Q
                   /\ its !! j = Some h.
Proof.
  induction fuel as [|fuel IH]; intros k i hid Hi Hfuel.
  - exists ∅. split; [simpl; f_equal; set_solver|].
    intros h. split; [set_solver|].
    intros (j & Hkj & _ & Hj). apply lookup_lt_Some in Hj. lia.
  - simpl.
    destruct (JS.lt i stop && JS.lt i (inject_Z (Z.of_nat (length its)))) eqn:Ht.
    + apply andb_true_iff in Ht as [Hstop Hlen].
      apply lt_iff in Hstop. apply lt_iff in Hlen.
      rewrite Hi in Hlen. rewrite <- Zlt_Qlt in Hlen.
      rewrite (index_integer its i (Z.of_nat k) Hi).
      assert ((0 <=? Z.of_nat k) = true) as -> by (apply Z.leb_le; lia).
      rewrite Nat2Z.id.
      destruct (its !! k) as [item|] eqn:Hk;
        [|apply lookup_ge_None in Hk; lia].
      destruct (IH (S k) (i + 1)%Q (hid ∖ {[item]})) as (T & HT & Hmem).
      { rewrite Hi, Nat2Z.inj_succ. unfold Z.succ.
        rewrite inject_Z_plus. reflexivity. }
      { lia. }
      exists ({[item]} ∪ T). split.
      * rewrite HT. f_equal. set_solver.
      * intros h. rewrite elem_of_union, elem_of_singleton, Hmem. split.
        -- intros [->|(j & Hj & Hs & Hl)].
           ++ exists k. split; [lia|]. split; [|assumption].
              now rewrite <- Hi.
           ++ exists j. split; [lia|]. now split.
        -- intros (j & Hj & Hs & Hl).
           destruct (decide (j = k)) as [->|Hne].
           ++ left. congruence.
           ++ right. exists j. split; [lia|]. now split.
    + exists ∅. split; [f_equal; set_solver|].
      intros h. split; [set_solver|].
      intros (j & Hkj & Hjs & Hj). exfalso.
      apply lookup_lt_Some in Hj.
      apply andb_false_iff in Ht as [Ht|Ht]; apply lt_false_iff in Ht;
        rewrite Hi in Ht.
      * assert (inject_Z (Z.of_nat k) <= inject_Z (Z.of_nat j))%Q
          by (rewrite <- Zle_Qle; lia).
        lra.
      * rewrite <- Zle_Qle in Ht. lia.
Qed.

(** What the loop removes from the hidden set, and how it completes, does
    not depend on the hidden set it starts from. *)
Lemma showItems_hidden fuel : forall i,
  exists c (T : gset nat),
    forall hid, showItems fuel i stop its hid = (c, hid ∖ T).
Proof.
  induction fuel as [|fuel IH]; intros i.
  - exists Normal, ∅. intros hid. simpl. f_equal. set_solver.
  - simpl.
    destruct (JS.lt i stop && JS.lt i (inject_Z (Z.of_nat (length its)))).
    + destruct (JS.index its i) as [item|].
      * destruct (IH (i + 1)%Q) as (c & T & HT).
        exists c, ({[item]} ∪ T). intros hid. rewrite HT. f_equal. set_solver.
      * exists Throw, ∅. intros hid. f_equal. set_solver.
    + exists Normal, ∅. intros hid. f_equal. set_solver.
Qed.

(** An index of the array is a non-negative integer below its length. *)
Lemma index_Some_nat i item :
  JS.index its i = Some item ->
  exists k : nat, (i == inject_Z (Z.of_nat k))%Q /\ its !! k = Some item.
Proof.
  unfold JS.index. intros H.
  destruct (JS.is_integer i) eqn:Hint; [|discriminate].
  destruct (Qle_bool 0 i) eqn:Hpos; [|discriminate]. simpl in H.
  exists (Z.to_nat (Qfloor i)). split; [|assumption].
  apply eq_iff in Hint. rewrite Hint at 1.
  apply Qle_bool_iff in Hpos.
  assert (0 <= Qfloor i).
  { change 0 with (Qfloor 0). now apply Qfloor_resp_le. }
  now rewrite Z2Nat.id.
Qed.

(** The fuel given by [showPage] is never used up: more fuel changes
    nothing. *)
Lemma showItems_fuel fuel i hid :
  (length its < fuel)%nat ->
  showItems fuel i stop its hid = showItems (S (length its)) i stop its hid.
Proof.
  intros Hfuel. destruct fuel as [|fuel]; [lia|].
  destruct (JS.lt i stop && JS.lt i (inject_Z (Z.of_nat (length its)))) eqn:Ht.
  - destruct (JS.index its i) as [item|] eqn:Hi.
    + destruct (index_Some_nat i item Hi) as (k & Hk & _).
      destruct (showItems_from_index (S fuel) k i hid Hk) as (T1 & -> & H1); [lia|].
      destruct (showItems_from_index (S (length its)) k i hid Hk)
        as (T2 & -> & H2); [lia|].
      f_equal. f_equal. apply set_eq. intros h. now rewrite H1, H2.
    + now rewrite !showItems_throw.
  - now rewrite !showItems_skip.
Qed.

(** The loop throws exactly when it is entered at something that is not
    an index of the array. *)
Lemma showItems_completion i hid :
  (showItems (S (length its)) i stop its hid).1 = Throw <->
  JS.lt i stop && JS.lt i (inject_Z (Z.of_nat (length its))) = true
  /\ JS.index its i = None.
Proof.
  destruct (JS.lt i stop && JS.lt i (inject_Z (Z.of_nat (length its)))) eqn:Ht.
  - destruct (JS.index its i) as [item|] eqn:Hi.
    + destruct (index_Some_nat i item Hi) as (k & Hk & _).
      destruct (showItems_from_index (S (length its)) k i hid Hk)
        as (T & -> & _); [lia|].
      simpl. split; [discriminate|]. intros [_ ?]. discriminate.
    + rewrite showItems_throw by assumption. simpl. tauto.
  - rewrite showItems_skip by assumption. simpl.
    split; [discriminate|]. intros [? _]. discriminate.
Qed.

End ShowItems.

(** ** What each method writes *)

#[local] Arguments showItems : simpl never.
#[local] Arguments JS.lt : simpl never.
#[local] Arguments JS.le : simpl never.
#[local] Arguments JS.eq : simpl never.
#[local] Arguments JS.ceil_div : simpl never.
#[local] Arguments JS.floor_half : simpl never.
#[local] Arguments JS.or_default : simpl never.
#[local] Arguments JS.min : simpl never.

Section Frames.

(** [updateDisplay], statement by statement. *)
Lemma updateDisplay_eq (s : Paginator) :
  updateDisplay s =
    match showItems (S (length (items s))) (startIndex s) (endIndex s) (items s)
                    (hiddenItems s ∪ list_to_set (items s)) with
    | (Normal, hid) =>
        (Normal,
         dispatchEvent (pageChange s)
           (updatePaginationVisibility
              (updateActivePageNumber
                 (updateButtonStates (set_hiddenItems hid s)))))
    | (Throw, hid) => (Throw, set_hiddenItems hid s)
    end.
Proof.
  unfold updateDisplay, and_then, run, showPage, hideItems. simpl.
  change (startIndex (set_hiddenItems _ s)) with (startIndex s).
  change (endIndex (set_hiddenItems _ s)) with (endIndex s).
  destruct (showItems _ _ _ _ _) as [[|] hid]; reflexivity.
Qed.

Lemma updateDisplay_core s : core (updateDisplay s).2 = core s.
Proof.
  rewrite updateDisplay_eq.
  destruct (showItems _ _ _ _ _) as [[|] hid]; reflexivity.
Qed.

(** [updateDisplay] changes no button's page number. *)
Lemma updateDisplay_pages s :
  page <$> pageButtons (updateDisplay s).2 = page <$> pageButtons s.
Proof.
  rewrite updateDisplay_eq.
  destruct (showItems _ _ _ _ _) as [[|] hid]; simpl; [|reflexivity].
  rewrite <- !list_fmap_compose. reflexivity.
Qed.


Lemma updateDisplay_completion s :
  (updateDisplay s).1 =
    (showItems (S (length (items s))) (startIndex s) (endIndex s) (items s)
               (hiddenItems s ∪ list_to_set (items s))).1.
Proof.
  rewrite updateDisplay_eq.
  destruct (showItems _ _ _ _ _) as [[|] hid]; reflexivity.
Qed.

Lemma updatePaginationVisibility_pages s :
  page <$> pageButtons (updatePaginationVisibility s) = page <$> pageButtons s.
Proof. simpl. rewrite <- list_fmap_compose. reflexivity. Qed.

Lemma createPageNumbers_pages s :
  page <$> pageButtons (createPageNumbers s) = seqZ 1 (totalPages s).
Proof.
  unfold createPageNumbers. rewrite updatePaginationVisibility_pages. simpl.
  rewrite <- list_fmap_compose. apply list_fmap_id.
Qed.

(** [updatePagination] after the page count is settled. *)
Lemma updatePagination_eq s :
  updatePagination s =
    let s1 := createPageNumbers (calculateTotalPages s) in
    match updateDisplay s1 with
    | (Normal, s2) => (Normal, set_controlsShown (1 <? totalPages s2) s2)
    | (Throw, s2) => (Throw, s2)
    end.
Proof.
  unfold updatePagination, and_then, run. simpl.
  destruct (updateDisplay _) as [[|] s2]; reflexivity.
Qed.

End Frames.

(** ** Page arithmetic *)

Lemma calculateTotalPages_totalPages (s : Paginator) :
  totalPages (calculateTotalPages s) =
    JS.or_default (JS.ceil_div (Z.of_nat (length (items s))) (itemsPerPage s)) 1.
Proof.
  unfold calculateTotalPages. cbv zeta.
  destruct (JS.lt _ _); reflexivity.
Qed.

(** C4: for every item count [c >= 0] and every [itemsPerPage >= 1], the
    page count left by [calculateTotalPages] is [max 1 (ceil (c / itemsPerPage))],
    where the ceiling [q] is the integer with
    [itemsPerPage * (q - 1) < c <= itemsPerPage * q]; an empty collection
    has exactly one page. *)
Theorem totalPages_formula (s : Paginator) :
  1 <= itemsPerPage s ->
  let c := Z.of_nat (length (items s)) in
  let n := totalPages (calculateTotalPages s) in
  (exists q, itemsPerPage s * (q - 1) < c <= itemsPerPage s * q
             /\ n = Z.max 1 q)
  /\ (c = 0 -> n = 1)
  /\ 1 <= n.
Proof.
  intros Hpp c n.
  assert (Hn : n = JS.or_default (JS.ceil_div c (itemsPerPage s)) 1)
    by apply calculateTotalPages_totalPages.
  pose proof (ceil_div_spec c (itemsPerPage s) ltac:(lia)) as Hq.
  assert (0 <= c) by (subst c; lia).
  set (q := JS.ceil_div c (itemsPerPage s)) in *.
  assert (0 <= q) by nia.
  unfold JS.or_default in Hn.
  destruct (Z.eqb_spec q 0) as [Hq0|Hq0].
  - split; [exists q; split; [exact Hq|lia]|]. split; lia.
  - split; [exists q; split; [exact Hq|lia]|]. split; [nia|lia].
Qed.

Lemma totalPages_formula_witness :
  1 <= 3 /\
  exists q, 3 * (q - 1) < 7 <= 3 * q
            /\ totalPages (calculateTotalPages
                             (set_items (seq 0 7) (constructor 1024 ∅)))
               = Z.max 1 q.
Proof.
  split; [lia|].
  apply (totalPages_formula (set_items (seq 0 7) (constructor 1024 ∅))).
  simpl. lia.
Defined.

(** The page counts listed with the formula. *)
Example totalPages_examples :
  let count c perPage :=
    totalPages (calculateTotalPages
                  (set_itemsPerPage perPage
                     (set_items (seq 0 c) (constructor 1024 ∅)))) in
  count 0%nat 3 = 1 /\ count 1%nat 3 = 1 /\ count 7%nat 3 = 3 /\ count 9%nat 3 = 3.
Proof. vm_compute. repeat split. Qed.

(** ** The window of page numbers *)

Lemma shouldShowPageNumber_iff (s : Paginator) (p dc : Z) :
  shouldShowPageNumber s p dc = true <->
    p = 1 \/ p = totalPages s \/ (inject_Z p == currentPage s)%Q
    \/ (Qabs (inject_Z p - currentPage s) <= inject_Z (dc / 2))%Q.
Proof.
  unfold shouldShowPageNumber.
  destruct ((p =? 1) || (p =? totalPages s)
            || JS.eq (inject_Z p) (currentPage s)) eqn:E.
  - split; [intros _|reflexivity].
    apply orb_true_iff in E as [E|E]; [apply orb_true_iff in E as [E|E]|].
    + left. now apply Z.eqb_eq.
    + right. left. now apply Z.eqb_eq.
    + right. right. left. now apply eq_iff.
  - rewrite le_iff, floor_half_div.
    apply orb_false_iff in E as [E E3]. apply orb_false_iff in E as [E1 E2].
    apply Z.eqb_neq in E1, E2. apply eq_false_iff in E3.
    tauto.
Qed.

(** C6: a page number is shown in the window exactly when it is 1, the last
    page, the current page, or within [floor (displayCount / 2)] of the
    current page; this is the flag every page button carries after
    [updatePaginationVisibility]; so the first, the last and the current
    page are always shown, and with [displayCount = 3], ten pages and the
    current page 5 the buttons shown are 1, 4, 5, 6 and 10. *)
Theorem page_window (s : Paginator) (p dc : Z) :
  (shouldShowPageNumber s p dc = true <->
     p = 1 \/ p = totalPages s \/ (inject_Z p == currentPage s)%Q
     \/ (Qabs (inject_Z p - currentPage s) <= inject_Z (dc / 2))%Q)
  /\ Forall (fun b =>
        shown b = true <->
          page b = 1 \/ page b = totalPages s
          \/ (inject_Z (page b) == currentPage s)%Q
          \/ (Qabs (inject_Z (page b) - currentPage s)
               <= inject_Z (displayCount s / 2))%Q)
       (pageButtons (updatePaginationVisibility s))
  /\ shouldShowPageNumber s 1 dc = true
  /\ shouldShowPageNumber s (totalPages s) dc = true
  /\ (forall c, (currentPage s == inject_Z c)%Q ->
        shouldShowPageNumber s c dc = true)
  /\ (let s5 := (goToPage 5 thirty_narrow).2 in
      displayCount s5 = 3 /\ totalPages s5 = 10 /\ currentPage s5 = 5%Q
      /\ visiblePages s5 = [1; 4; 5; 6; 10]).
Proof.
  split; [apply shouldShowPageNumber_iff|].
  split.
  { apply Forall_forall. intros b Hb. simpl in Hb.
    apply list_elem_of_fmap in Hb as (b0 & -> & _). simpl.
    apply shouldShowPageNumber_iff. }
  split; [apply shouldShowPageNumber_iff; tauto|].
  split; [apply shouldShowPageNumber_iff; tauto|].
  split.
  { intros c Hc. apply shouldShowPageNumber_iff.
    right. right. left. now symmetry. }
  vm_compute. repeat split.
Qed.

(** ** Resizing the window *)

(** C9: a resize leaves the current page, the page count, the items, their
    visibility, the configuration and the rest of the controls as they
    are and fires no event; of the page buttons it keeps the page numbers
    and the active flags and recomputes the display flags, for the display
    count of the new width. *)
Theorem resize_frame (s : Paginator) (width : Z) :
  let s' := window_resize width s in
  currentPage s' = currentPage s
  /\ totalPages s' = totalPages s
  /\ items s' = items s
  /\ hiddenItems s' = hiddenItems s
  /\ (itemsPerPage s', prevText s', nextText s')
     = (itemsPerPage s, prevText s, nextText s)
  /\ (prevDisabled s', nextDisabled s', controlsShown s', prevLabel s', nextLabel s')
     = (prevDisabled s, nextDisabled s, controlsShown s, prevLabel s, nextLabel s)
  /\ dispatched s' = dispatched s
  /\ visibleItemIndices (viewModel s') = visibleItemIndices (viewModel s)
  /\ page <$> pageButtons s' = page <$> pageButtons s
  /\ active <$> pageButtons s' = active <$> pageButtons s
  /\ shown <$> pageButtons s'
     = (fun b => shouldShowPageNumber s (page b) (if width <? 768 then 3 else 5))
         <$> pageButtons s.
Proof.
  cbv zeta. unfold window_resize.
  repeat (split; [reflexivity|]).
  split; [exact (updatePaginationVisibility_pages (set_innerWidth width s))|].
  split; simpl; rewrite <- list_fmap_compose; reflexivity.
Qed.

(** ** Reconfiguration *)

Lemma calculateTotalPages_config (s : Paginator) :
  (itemsPerPage (calculateTotalPages s), prevText (calculateTotalPages s),
   nextText (calculateTotalPages s), items (calculateTotalPages s),
   innerWidth (calculateTotalPages s))
  = (itemsPerPage s, prevText s, nextText s, items s, innerWidth s).
Proof.
  unfold calculateTotalPages. cbv zeta. destruct (JS.lt _ _); reflexivity.
Qed.

(** [updatePagination] leaves the current page and the page count where
    [calculateTotalPages] puts them, whether or not the display loop
    throws. *)
Lemma updatePagination_core (s : Paginator) :
  core (updatePagination s).2 = core (calculateTotalPages s).
Proof.
  rewrite updatePagination_eq. cbv zeta.
  pose proof (updateDisplay_core (createPageNumbers (calculateTotalPages s))) as H.
  destruct (updateDisplay _) as [[|] s2]; simpl in H |- *; exact H.
Qed.

Lemma attributeChangedCallback_itemsPerPage (s : Paginator) (old new : option string) :
  old <> new ->
  itemsPerPage (attributeChangedCallback "items-per-page" old new s).2
  = JS.or_nan (JS.parseInt (JS.to_string new)) 3.
Proof.
  intros Hne. unfold attributeChangedCallback.
  destruct (decide (old = new)) as [|_]; [contradiction|].
  unfold and_then at 1. unfold run at 1. simpl String.eqb. cbv iota.
  set (s1 := set_itemsPerPage _ s).
  unfold and_then, run.
  pose proof (updatePagination_core s1) as H.
  pose proof (calculateTotalPages_config s1) as Hc.
  destruct (updatePagination s1) as [[|] s2]; simpl in *;
    unfold core in H; congruence.
Qed.

(** C2 (the code departs from it): [items-per-page="-5"] parses to [-5],
    which is truthy, so it is stored as it is; [itemsPerPage >= 1] does not
    hold afterwards. *)
Theorem negative_itemsPerPage_stored (s : Paginator) :
  itemsPerPage
    (attributeChangedCallback "items-per-page" (Some "3"%string) (Some "-5"%string) s).2
  = -5.
Proof. now rewrite attributeChangedCallback_itemsPerPage. Qed.

(** What the parse-or-default does store: the default for text that does
    not start with a number and for zero, the parsed integer otherwise, of
    either sign. *)
Example itemsPerPage_examples :
  let stored v := JS.or_nan (JS.parseInt (JS.to_string v)) 3 in
  stored (Some "5"%string) = 5 /\ stored (Some "abc"%string) = 3
  /\ stored (Some "0"%string) = 3 /\ stored None = 3
  /\ stored (Some " 12px"%string) = 12 /\ stored (Some "-5"%string) = -5.
Proof. vm_compute. repeat split. Qed.

(** ** Which transitions fire [pagechange] *)

(** C1 (the code departs from it): [refresh()] and an attribute change both
    end in [updateDisplay], which dispatches [pagechange] whenever it
    completes: on the ten-item page [refresh()] fires an event for page 1,
    and so does a change of [prev-text]. *)
Theorem refresh_and_reconfigure_fire_pagechange :
  let fired :=
    {| ev_currentPage := 1; ev_totalPages := 4; ev_itemsPerPage := 3;
       ev_startIndex := 0; ev_endIndex := 3 |} in
  dispatched (refresh ten_items ten_by_three).2
  = dispatched ten_by_three ++ [fired]
  /\ dispatched
       (attributeChangedCallback "prev-text" None (Some "Back"%string) ten_by_three).2
     = dispatched ten_by_three ++ [fired]
  /\ dispatched
       (attributeChangedCallback "items-per-page" (Some "3"%string) (Some "5"%string)
          ten_by_three).2
     = dispatched ten_by_three
       ++ [{| ev_currentPage := 1; ev_totalPages := 2; ev_itemsPerPage := 5;
              ev_startIndex := 0; ev_endIndex := 5 |}].
Proof. vm_compute. repeat split. Qed.

(** ** Navigation on the ten-item page *)

(** C7: on the page of ten items, three per page (four pages), on page 1,
    [goToPage(2)] leaves exactly the items at indices 3, 4 and 5 visible
    and fires one event, with detail
    [{currentPage: 2, totalPages: 4, itemsPerPage: 3, startIndex: 3, endIndex: 6}]. *)
Theorem goToPage_2_of_4 :
  let r := goToPage 2 ten_by_three in
  (length (items ten_by_three) = 10%nat /\ itemsPerPage ten_by_three = 3
   /\ totalPages ten_by_three = 4 /\ currentPage ten_by_three = 1%Q)
  /\ r.1 = Normal
  /\ visibleItemIndices (viewModel r.2) = [3; 4; 5]%nat
  /\ dispatched r.2
     = dispatched ten_by_three
       ++ [{| ev_currentPage := 2; ev_totalPages := 4; ev_itemsPerPage := 3;
              ev_startIndex := 3; ev_endIndex := 6 |}].
Proof. vm_compute. repeat split. Qed.

(** ** [goToPage] *)

Section GoToPage.

Variable s : Paginator.

Lemma startIndex_integer (c : Z) :
  (currentPage s == inject_Z c)%Q ->
  (startIndex s == inject_Z ((c - 1) * itemsPerPage s))%Q.
Proof.
  intros Hc. unfold startIndex. rewrite Hc.
  rewrite inject_Z_mult. unfold Z.sub. rewrite inject_Z_plus. reflexivity.
Qed.

Lemma endIndex_integer (c : Z) :
  (currentPage s == inject_Z c)%Q ->
  (endIndex s == inject_Z ((c - 1) * itemsPerPage s + itemsPerPage s))%Q.
Proof.
  intros Hc. unfold endIndex. rewrite (startIndex_integer c Hc).
  now rewrite inject_Z_plus.
Qed.

(** On an integer page [c >= 1] the display loop completes and shows the
    items of the slice of the page, whatever the hidden set was. *)
Lemma showItems_integer_page (c : Z) (hid : gset nat) :
  (currentPage s == inject_Z c)%Q -> 1 <= c ->
  exists T : gset nat,
    showItems (S (length (items s))) (startIndex s) (endIndex s) (items s) hid
    = (Normal, hid ∖ T)
    /\ forall h, h ∈ T <->
         exists j, items s !! j = Some h /\ on_page (itemsPerPage s) c j.
Proof.
  intros Hc Hc1.
  pose proof (startIndex_integer c Hc) as Hs.
  pose proof (endIndex_integer c Hc) as He.
  destruct (Z_lt_le_dec 0 (itemsPerPage s)) as [Hpos|Hneg].
  - assert (Hk : (startIndex s
                  == inject_Z (Z.of_nat (Z.to_nat ((c - 1) * itemsPerPage s))))%Q).
    { rewrite Z2Nat.id by nia. exact Hs. }
    destruct (showItems_from_index (items s) (endIndex s) (S (length (items s)))
                _ _ hid Hk) as (T & HT & Hmem); [lia|].
    exists T. split; [exact HT|].
    intros h. rewrite Hmem. unfold on_page.
    split; intros (j & H1 & H2).
    + destruct H2 as [H2 H3]. exists j. split; [assumption|].
      rewrite He in H2. rewrite <- Zlt_Qlt in H2. lia.
    + exists j. split; [lia|]. split; [|assumption].
      rewrite He. rewrite <- Zlt_Qlt. lia.
  - exists ∅. split.
    + rewrite showItems_skip; [f_equal; set_solver|].
      apply andb_false_iff. left. apply lt_false_iff.
      rewrite He, Hs. rewrite <- Zle_Qle. lia.
    + intros h. split; [set_solver|].
      unfold on_page. intros (j & _ & ?). lia.
Qed.

End GoToPage.

(** C5: [goToPage(q)] does nothing at all (same component, same DOM, no
    event) when [q < 1], [q > totalPages] or [q == currentPage], for every
    number [q]; for every other page number [p] it completes, sets
    [currentPage] to [p],
    leaves the page count, the items and the configuration alone, hides
    every item but those of the slice of page [p], sets the disabled and
    active flags and the window of page numbers for [p], and fires exactly
    one event. *)
Theorem goToPage_spec (s : Paginator) (p : Z) :
  (forall q : Q,
     (q < 1)%Q \/ (inject_Z (totalPages s) < q)%Q \/ (q == currentPage s)%Q ->
     goToPage q s = (Normal, s))
  /\ (1 <= p <= totalPages s -> ~ (inject_Z p == currentPage s)%Q ->
      let r := goToPage (inject_Z p) s in
      r.1 = Normal
      /\ currentPage r.2 = inject_Z p
      /\ totalPages r.2 = totalPages s
      /\ items r.2 = items s
      /\ (itemsPerPage r.2, prevText r.2, nextText r.2)
         = (itemsPerPage s, prevText s, nextText s)
      /\ dispatched r.2
         = dispatched s
           ++ [{| ev_currentPage := inject_Z p;
                  ev_totalPages := totalPages s;
                  ev_itemsPerPage := itemsPerPage s;
                  ev_startIndex := (inject_Z p - 1) * inject_Z (itemsPerPage s);
                  ev_endIndex :=
                    JS.min ((inject_Z p - 1) * inject_Z (itemsPerPage s)
                            + inject_Z (itemsPerPage s))
                           (inject_Z (Z.of_nat (length (items s)))) |}]
      /\ (forall h, h ∈ hiddenItems r.2 <->
            (h ∈ hiddenItems s \/ h ∈ items s)
            /\ ~ exists j, items s !! j = Some h /\ on_page (itemsPerPage s) p j)
      /\ prevDisabled r.2 = (p =? 1)
      /\ nextDisabled r.2 = (p =? totalPages s)
      /\ pageButtons r.2
         = (fun b => {| page := page b;
                        active := (page b =? p);
                        shown := shouldShowPageNumber r.2 (page b) (displayCount s) |})
             <$> pageButtons s
      /\ (controlsShown r.2, prevLabel r.2, nextLabel r.2, innerWidth r.2)
         = (controlsShown s, prevLabel s, nextLabel s, innerWidth s)).
Proof.
  split.
  - intros q H. unfold goToPage.
    assert (JS.le 1 q && JS.le q (inject_Z (totalPages s))
            && negb (JS.eq q (currentPage s)) = false) as ->;
      [|reflexivity].
    destruct H as [H|[H|H]].
    + apply andb_false_iff. left. apply andb_false_iff. left.
      destruct (JS.le 1 q) eqn:E; [|reflexivity].
      apply le_iff in E. exfalso. revert H. now apply Qle_not_lt.
    + apply andb_false_iff. left. apply andb_false_iff. right.
      destruct (JS.le q (inject_Z (totalPages s))) eqn:E; [|reflexivity].
      apply le_iff in E. exfalso. revert H. now apply Qle_not_lt.
    + apply andb_false_iff. right. apply negb_false_iff. now apply eq_iff.
  - intros Hp Hne. unfold goToPage.
    assert (JS.le 1 (inject_Z p) && JS.le (inject_Z p) (inject_Z (totalPages s))
            && negb (JS.eq (inject_Z p) (currentPage s)) = true) as ->.
    { rewrite !andb_true_iff, negb_true_iff, !le_iff, eq_false_iff.
      split; [split|assumption].
      - apply one_le_inject. lia.
      - rewrite <- Zle_Qle. lia. }
    cbv zeta. rewrite updateDisplay_eq.
    set (s1 := set_currentPage (inject_Z p) s).
    destruct (showItems_integer_page s1 p
                (hiddenItems s1 ∪ list_to_set (items s1)))
      as (T & HT & Hmem); [reflexivity|lia|].
    rewrite HT. simpl.
    repeat (split; [reflexivity|]).
    split.
    { intros h. rewrite elem_of_difference, elem_of_union, elem_of_list_to_set.
      rewrite Hmem. reflexivity. }
    split; [apply (eq_inject p 1)|].
    split; [apply eq_inject|].
    split; [|reflexivity].
    rewrite <- !list_fmap_compose. apply list_fmap_ext.
    intros k b _. simpl. f_equal. apply eq_inject.
Qed.

(** *** [goToPage] at a number that need not be an integer *)





(** ** Refresh *)

Section Refresh.

Lemma calculateTotalPages_eq (s : Paginator) :
  calculateTotalPages s =
    let pages := pageCount s (items s) in
    set_currentPage
      (if JS.lt (inject_Z pages) (currentPage s) then inject_Z pages
       else currentPage s)
      (set_totalPages pages s).
Proof.
  unfold calculateTotalPages, pageCount. cbv zeta. simpl.
  destruct (JS.lt _ _); destruct s; reflexivity.
Qed.

Lemma clampPage_idem (cp : Q) (pages : Z) :
  clampPage (clampPage cp pages) pages = clampPage cp pages.
Proof.
  unfold clampPage. cbv zeta.
  destruct (JS.lt cp 1) eqn:E1.
  - destruct (JS.lt (inject_Z pages) 1) eqn:E2.
    + rewrite E2. cbv iota. now rewrite E2.
    + change (JS.lt 1 1) with false. cbv iota. now rewrite E2.
  - destruct (JS.lt (inject_Z pages) cp) eqn:E2.
    + destruct (JS.lt (inject_Z pages) 1) eqn:E3.
      * now rewrite E3.
      * now destruct (JS.lt (inject_Z pages) (inject_Z pages)).
    + rewrite E1. now rewrite E2.
Qed.

(** A second [calculateTotalPages] changes nothing. *)
Lemma calculateTotalPages_idem (s : Paginator) :
  calculateTotalPages (calculateTotalPages s) = calculateTotalPages s.
Proof.
  rewrite (calculateTotalPages_eq (calculateTotalPages s)).
  rewrite (calculateTotalPages_eq s). cbv zeta. unfold pageCount. simpl.
  set (pages := JS.or_default _ 1).
  destruct (JS.lt (inject_Z pages) (currentPage s)) eqn:E.
  - destruct (JS.lt (inject_Z pages) (inject_Z pages)) eqn:E2.
    + apply lt_iff in E2. exfalso. revert E2. apply Qlt_irrefl.
    + reflexivity.
  - rewrite E. reflexivity.
Qed.

(** The two clamps of [initializePagination] in one. *)
Lemma calculateTotalPages_clamp (s : Paginator) :
  calculateTotalPages
    (if JS.lt (currentPage s) 1 then set_currentPage 1 s else s)
  = set_currentPage (clampPage (currentPage s) (pageCount s (items s)))
      (set_totalPages (pageCount s (items s)) s).
Proof.
  rewrite calculateTotalPages_eq. cbv zeta. unfold clampPage. cbv zeta.
  destruct (JS.lt (currentPage s) 1); destruct s; reflexivity.
Qed.

(** [initializePagination] never throws, and what it leaves is the
    display of the page buttons made for the clamped page. *)
Lemma initializePagination_eq (dom : Slotted) (s : Paginator) :
  initializePagination dom s =
    let its := discoverItems dom in
    let pages := pageCount s its in
    (Normal,
     settle (createPageNumbers
               (set_currentPage (clampPage (currentPage s) pages)
                  (set_totalPages pages (set_items its s))))).
Proof.
  unfold initializePagination, try_catch, and_then, run.
  rewrite updatePagination_eq. cbv zeta. unfold settle.
  rewrite calculateTotalPages_idem.
  rewrite (calculateTotalPages_clamp (set_items (discoverItems dom) s)).
  simpl.
  destruct (updateDisplay _) as [[|] s']; reflexivity.
Qed.

Lemma settle_core (s : Paginator) : core (settle s) = core s.
Proof.
  unfold settle. pose proof (updateDisplay_core s) as H.
  destruct (updateDisplay s) as [[|] s']; exact H.
Qed.

(** Displaying again a component that was just displayed, with the same
    page buttons, draws the same thing. *)
Lemma settle_again (a b : Paginator) :
  core b = core a ->
  pageButtons b = pageButtons a ->
  (hiddenItems b, prevDisabled b, nextDisabled b, controlsShown b,
   prevLabel b, nextLabel b)
  = (hiddenItems (settle a), prevDisabled (settle a), nextDisabled (settle a),
     controlsShown (settle a), prevLabel (settle a), nextLabel (settle a)) ->
  rendered (settle b) = rendered (settle a).
Proof.
  unfold settle. rewrite !updateDisplay_eq.
  intros Hcore Hbtn Hst.
  destruct a as [ipp pt nt cp tp its hid pd nd btn cs pl nl w ev].
  destruct b as [ipp' pt' nt' cp' tp' its' hid' pd' nd' btn' cs' pl' nl' w' ev'].
  unfold core in Hcore. simpl in Hcore, Hbtn.
  injection Hcore as -> -> -> -> -> -> ->. subst btn'.
  unfold startIndex, endIndex in *. simpl in *.
  destruct (showItems_hidden its (((cp - 1) * inject_Z ipp) + inject_Z ipp)%Q
              (S (length its)) ((cp - 1) * inject_Z ipp)%Q) as (c & T & HT).
  rewrite !HT in *.
  destruct c; simpl in *; injection Hst as -> -> -> -> -> ->;
    unfold rendered; simpl;
    repeat (apply (f_equal2 pair); [|reflexivity]); set_solver.
Qed.

Lemma createPageNumbers_buttons (a b : Paginator) :
  core b = core a ->
  pageButtons (createPageNumbers b) = pageButtons (createPageNumbers a).
Proof.
  intros Hcore.
  destruct a as [ipp pt nt cp tp its hid pd nd btn cs pl nl w ev].
  destruct b as [ipp' pt' nt' cp' tp' its' hid' pd' nd' btn' cs' pl' nl' w' ev'].
  unfold core in Hcore. simpl in Hcore.
  injection Hcore as -> -> -> -> -> -> ->. reflexivity.
Qed.

End Refresh.

Lemma refresh_eq (dom : Slotted) (s : Paginator) :
  (refresh dom s).2 = settle (prepare (discoverItems dom) s).
Proof. unfold refresh. now rewrite initializePagination_eq. Qed.


Lemma prepare_core (its : list nat) (s : Paginator) :
  core (prepare its s)
  = (itemsPerPage s, prevText s, nextText s,
     clampPage (currentPage s) (pageCount s its), pageCount s its, its,
     innerWidth s).
Proof. reflexivity. Qed.

Lemma prepare_buttons (its : list nat) (a b : Paginator) :
  core (prepare its b) = core (prepare its a) ->
  pageButtons (prepare its b) = pageButtons (prepare its a).
Proof. intros H. unfold prepare. apply createPageNumbers_buttons. exact H. Qed.

(** The view model is read off the items and what is drawn. *)
Lemma viewModel_ext (a b : Paginator) :
  items a = items b -> rendered a = rendered b -> viewModel a = viewModel b.
Proof.
  intros Hi Hr. unfold rendered in Hr.
  injection Hr as Hh Hp Hn Hb Hc _ _.
  unfold viewModel. rewrite Hi, Hp, Hn, Hb, Hc. f_equal.
  apply list_filter_iff. intros i. unfold item_visible. now rewrite Hi, Hh.
Qed.

Lemma prepare_stale (its : list nat) (s : Paginator) :
  (hiddenItems (prepare its s), prevDisabled (prepare its s),
   nextDisabled (prepare its s), controlsShown (prepare its s),
   prevLabel (prepare its s), nextLabel (prepare its s))
  = (hiddenItems s, prevDisabled s, nextDisabled s, controlsShown s,
     prevLabel s, nextLabel s).
Proof. reflexivity. Qed.

Lemma core_page (a b : Paginator) :
  core a = core b ->
  items a = items b /\ currentPage a = currentPage b
  /\ totalPages a = totalPages b.
Proof. unfold core. intros H. injection H as _ _ _ Hcp Htp Hi _. auto. Qed.

(** C8: [refresh()] twice in a row on the same slotted items leaves the
    same items, current page and page count, and the same view model (and
    the same DOM altogether), as [refresh()] once. *)
Theorem refresh_idempotent (s : Paginator) (dom : Slotted) :
  let once := (refresh dom s).2 in
  let twice := (refresh dom once).2 in
  items twice = items once
  /\ currentPage twice = currentPage once
  /\ totalPages twice = totalPages once
  /\ viewModel twice = viewModel once
  /\ rendered twice = rendered once.
Proof.
  cbv zeta. rewrite (refresh_eq dom s).
  set (its := discoverItems dom). set (a := prepare its s).
  rewrite (refresh_eq dom (settle a)). fold its.
  set (b := prepare its (settle a)).
  pose proof (settle_core a) as Ha.
  pose proof (settle_core b) as Hb.
  pose proof (prepare_core its s) as Hca. fold a in Hca.
  assert (Hab : core b = core a).
  { rewrite Hca in Ha |- *. unfold core in Ha.
    injection Ha as Hpp Hpt Hnt Hcp Htp Hits Hw.
    subst b. rewrite prepare_core. unfold pageCount.
    rewrite Hpp, Hpt, Hnt, Hcp, Hw. fold (pageCount s its).
    now rewrite clampPage_idem. }
  assert (Hbtn : pageButtons b = pageButtons a).
  { subst a b. apply prepare_buttons. exact Hab. }
  assert (Hr : rendered (settle b) = rendered (settle a)).
  { apply settle_again; [exact Hab|exact Hbtn|].
    exact (prepare_stale its (settle a)). }
  assert (Hc : core (settle b) = core (settle a)) by congruence.
  destruct (core_page _ _ Hc) as (Hi & Hcp & Htp).
  split; [exact Hi|]. split; [exact Hcp|]. split; [exact Htp|].
  split; [|exact Hr]. exact (viewModel_ext _ _ Hi Hr).
Qed.

(** ** The range of the current page *)

Section Invariant.

Lemma well_paged_ext (a b : Paginator) :
  paging a = paging b -> well_paged b -> well_paged a.
Proof.
  unfold paging, well_paged, page_in_range.
  intros H. injection H as -> -> -> ->. tauto.
Qed.

Lemma updateDisplay_paging (s : Paginator) :
  paging (updateDisplay s).2 = paging s.
Proof.
  pose proof (updateDisplay_core s) as Hc.
  pose proof (updateDisplay_pages s) as Hp.
  unfold core in Hc. unfold paging.
  injection Hc as -> _ _ -> -> _ _. now rewrite Hp.
Qed.

Lemma or_nan_nonzero (x : option Z) : JS.or_nan x 3 <> 0.
Proof.
  destruct x as [v|]; simpl; [|lia].
  unfold JS.or_default. destruct (Z.eqb_spec v 0); lia.
Qed.

Lemma pageCount_pos (s : Paginator) (its : list nat) :
  0 < itemsPerPage s -> 1 <= pageCount s its.
Proof.
  intros Hpp. unfold pageCount, JS.or_default.
  pose proof (ceil_div_spec (Z.of_nat (length its)) (itemsPerPage s) Hpp).
  destruct (Z.eqb_spec (JS.ceil_div (Z.of_nat (length its)) (itemsPerPage s)) 0);
    [lia|nia].
Qed.

(** The clamp from above keeps an integer page of at least 1 in range. *)
Lemma clamp_in_range (cp : Q) (c pages : Z) :
  (cp == inject_Z c)%Q -> 1 <= c -> 1 <= pages ->
  exists c', ((if JS.lt (inject_Z pages) cp then inject_Z pages else cp)
              == inject_Z c')%Q
             /\ 1 <= c' <= pages.
Proof.
  intros Hc Hc1 Hp.
  destruct (JS.lt (inject_Z pages) cp) eqn:E.
  - exists pages. split; [reflexivity|lia].
  - exists c. split; [assumption|].
    apply lt_false_iff in E. rewrite Hc in E. rewrite <- Zle_Qle in E. lia.
Qed.

Lemma clampPage_in_range (cp : Q) (c pages : Z) :
  (cp == inject_Z c)%Q -> 1 <= c -> 1 <= pages ->
  exists c', (clampPage cp pages == inject_Z c')%Q /\ 1 <= c' <= pages.
Proof.
  intros Hc Hc1 Hp. unfold clampPage. cbv zeta.
  assert (JS.lt cp 1 = false) as ->.
  { apply lt_false_iff. rewrite Hc. now apply one_le_inject. }
  now apply (clamp_in_range cp c pages).
Qed.

Lemma seqZ_in_range (pages : Z) :
  Forall (fun n => 1 <= n <= pages) (seqZ 1 pages).
Proof.
  apply Forall_forall. intros n Hn. apply elem_of_seqZ in Hn. lia.
Qed.

Lemma updatePagination_paging (s : Paginator) :
  paging (updatePagination s).2
  = (itemsPerPage s,
     (if JS.lt (inject_Z (pageCount s (items s))) (currentPage s)
      then inject_Z (pageCount s (items s)) else currentPage s),
     pageCount s (items s),
     seqZ 1 (pageCount s (items s))).
Proof.
  rewrite updatePagination_eq. cbv zeta.
  pose proof (updateDisplay_paging (createPageNumbers (calculateTotalPages s))) as H.
  assert (Hs : paging (createPageNumbers (calculateTotalPages s))
               = (itemsPerPage s,
                  (if JS.lt (inject_Z (pageCount s (items s))) (currentPage s)
                   then inject_Z (pageCount s (items s)) else currentPage s),
                  pageCount s (items s),
                  seqZ 1 (pageCount s (items s)))).
  { unfold paging. rewrite createPageNumbers_pages.
    rewrite calculateTotalPages_eq. reflexivity. }
  rewrite Hs in H.
  destruct (updateDisplay _) as [[|] s2]; exact H.
Qed.

(** [updatePagination] establishes the invariant from a positive page
    size and an integer page of at least 1. *)
Lemma updatePagination_well_paged (s : Paginator) (c : Z) :
  0 < itemsPerPage s -> (currentPage s == inject_Z c)%Q -> 1 <= c ->
  well_paged (updatePagination s).2.
Proof.
  intros Hpp Hc Hc1.
  pose proof (updatePagination_paging s) as H.
  pose proof (pageCount_pos s (items s) Hpp) as Hpos.
  unfold paging in H. injection H as H1 H2 H3 H4.
  unfold well_paged, page_in_range. rewrite H1, H2, H3, H4.
  split; [assumption|]. split; [|apply seqZ_in_range].
  now apply (clamp_in_range _ c).
Qed.

Lemma attributeChangedCallback_well_paged name oldValue newValue (s : Paginator) :
  in_domain (Reconfigure name oldValue newValue) = true ->
  well_paged s ->
  well_paged (attributeChangedCallback name oldValue newValue s).2.
Proof.
  intros Hdom (Hpp & (c & Hc & Hc1) & Hb).
  unfold attributeChangedCallback.
  destruct (decide (oldValue = newValue)) as [_|_].
  { split; [assumption|]. split; [exists c; tauto|assumption]. }
  unfold and_then at 1. unfold run at 1.
  set (s1 := if String.eqb name "items-per-page" then _ else _).
  assert (Hs1 : 0 < itemsPerPage s1 /\ currentPage s1 = currentPage s).
  { subst s1. simpl in Hdom.
    destruct (String.eqb name "items-per-page").
    - split; [|reflexivity]. simpl.
      pose proof (or_nan_nonzero (JS.parseInt (JS.to_string newValue))).
      apply andb_true_iff in Hdom as [_ Hdom].
      apply Z.leb_le in Hdom. lia.
    - destruct (String.eqb name "prev-text"); [now split|].
      destruct (String.eqb name "next-text"); now split. }
  destruct Hs1 as [Hpp1 Hcp1].
  assert (Hw : well_paged (updatePagination s1).2).
  { apply (updatePagination_well_paged s1 c); [assumption| |lia].
    now rewrite Hcp1. }
  unfold and_then, run.
  destruct (updatePagination s1) as [[|] s2]; exact Hw.
Qed.

Lemma refresh_well_paged (dom : Slotted) (s : Paginator) :
  well_paged s -> well_paged (refresh dom s).2.
Proof.
  intros (Hpp & (c & Hc & Hc1) & _).
  rewrite refresh_eq.
  set (its := discoverItems dom).
  pose proof (settle_core (prepare its s)) as Hcore.
  rewrite prepare_core in Hcore. unfold core in Hcore.
  injection Hcore as H1 _ _ H2 H3 _ _.
  assert (Hp : page <$> pageButtons (settle (prepare its s))
               = seqZ 1 (pageCount s its)).
  { unfold settle.
    pose proof (updateDisplay_pages (prepare its s)) as Hp.
    destruct (updateDisplay (prepare its s)) as [[|] s2]; simpl in Hp |- *;
      rewrite Hp; apply (createPageNumbers_pages
        (set_currentPage (clampPage (currentPage s) (pageCount s its))
           (set_totalPages (pageCount s its) (set_items its s)))). }
  pose proof (pageCount_pos s its Hpp) as Hpos.
  unfold well_paged, page_in_range. rewrite H1, H2, H3, Hp.
  split; [assumption|]. split; [|apply seqZ_in_range].
  apply (clampPage_in_range _ c); [assumption|lia|assumption].
Qed.

(** Navigation to an integer page that passes its guard. *)
Lemma navigate_well_paged (s : Paginator) (p : Q) (z : Z) :
  (p == inject_Z z)%Q -> 1 <= z <= totalPages s ->
  well_paged s -> well_paged (updateDisplay (set_currentPage p s)).2.
Proof.
  intros Hp Hz (Hpp & _ & Hb).
  apply (well_paged_ext _ (set_currentPage p s));
    [apply updateDisplay_paging|].
  split; [assumption|]. split; [exists z; split; assumption|assumption].
Qed.

Lemma step_well_paged (t : Transition) (s : Paginator) :
  in_domain t = true -> well_paged s -> well_paged (step t s).2.
Proof.
  intros Hdom Hw. destruct t as [name old new|dom|p| | |k|width]; simpl step.
  - now apply attributeChangedCallback_well_paged.
  - now apply refresh_well_paged.
  - unfold goToPage.
    destruct (JS.le 1 p && JS.le p (inject_Z (totalPages s))
              && negb (JS.eq p (currentPage s))) eqn:G; [|exact Hw].
    apply andb_true_iff in G as [G _]. apply andb_true_iff in G as [G1 G2].
    apply le_iff in G1, G2. simpl in Hdom.
    apply is_integer_iff in Hdom as [z Hz].
    apply (navigate_well_paged s p z); [assumption| |assumption].
    rewrite Hz in G1, G2. rewrite one_le_inject in G1.
    rewrite <- Zle_Qle in G2. lia.
  - unfold prevBtn_click.
    destruct (JS.lt 1 (currentPage s)) eqn:G; [|exact Hw].
    destruct Hw as (Hpp & (c & Hc & Hc1) & Hb).
    apply lt_iff in G.
    apply (navigate_well_paged s _ (c - 1)).
    + rewrite Hc. unfold Z.sub. rewrite inject_Z_plus. reflexivity.
    + rewrite Hc in G. change 1%Q with (inject_Z 1) in G.
      rewrite <- Zlt_Qlt in G. lia.
    + split; [assumption|]. split; [exists c; tauto|assumption].
  - unfold nextBtn_click.
    destruct (JS.lt (currentPage s) (inject_Z (totalPages s))) eqn:G; [|exact Hw].
    destruct Hw as (Hpp & (c & Hc & Hc1) & Hb).
    apply lt_iff in G.
    apply (navigate_well_paged s _ (c + 1)).
    + rewrite Hc. rewrite inject_Z_plus. reflexivity.
    + rewrite Hc in G. rewrite <- Zlt_Qlt in G. lia.
    + split; [assumption|]. split; [exists c; tauto|assumption].
  - unfold numbersContainer_click.
    destruct (pageButtons s !! k) as [target|] eqn:Hk; [|exact Hw].
    destruct (negb (JS.eq (inject_Z (page target)) (currentPage s))); [|exact Hw].
    apply (navigate_well_paged s _ (page target)); [reflexivity| |assumption].
    destruct Hw as (_ & _ & Hb).
    rewrite Forall_forall in Hb. apply Hb.
    apply list_elem_of_fmap. exists target. split; [reflexivity|].
    apply list_elem_of_lookup. eauto.
  - unfold run. simpl.
    apply (well_paged_ext _ s); [|assumption].
    unfold paging. f_equal.
    exact (updatePaginationVisibility_pages (set_innerWidth width s)).
Qed.

Lemma constructor_well_paged (width : Z) (hidden : gset nat) :
  well_paged (constructor width hidden).
Proof.
  split; [simpl; lia|]. split; [|constructor].
  exists 1. split; [reflexivity|simpl; lia].
Qed.

Lemma exec_well_paged (ts : list Transition) : forall s,
  forallb in_domain ts = true -> well_paged s -> well_paged (exec ts s).
Proof.
  induction ts as [|t ts IH]; intros s Hdom Hw; [exact Hw|].
  simpl in Hdom. apply andb_true_iff in Hdom as [Ht Hts].
  apply (IH (step t s).2 Hts). now apply step_well_paged.
Qed.

End Invariant.

(** C3, as the code has it: from the state the constructor leaves, after
    every sequence of transitions in which [goToPage] is only given
    integers and every [items-per-page] value parses to [NaN] or to an
    integer from 0 to [2 ^ 53] (white space of every kind skipped),
    [currentPage] is an integer with [1 <= currentPage <= totalPages];
    every prefix of such a sequence is one too, so this holds after each
    transition. *)
Theorem currentPage_in_range (width : Z) (hidden : gset nat) (ts : list Transition) :
  forallb in_domain ts = true ->
  page_in_range (exec ts (constructor width hidden)).
Proof.
  intros Hdom.
  apply (exec_well_paged ts _ Hdom (constructor_well_paged width hidden)).
Qed.

Lemma currentPage_in_range_witness :
  let ts :=
    [Refresh ten_items; NavigateTo 2;
     Reconfigure "items-per-page" (Some "3"%string) (Some "5"%string);
     NavigateNext; ResizeSignal 500; PageClick 0; NavigatePrev] in
  forallb in_domain ts = true
  /\ page_in_range (exec ts (constructor 1024 ∅)).
Proof.
  cbv zeta.
  assert (H : forallb in_domain
                [Refresh ten_items; NavigateTo 2;
                 Reconfigure "items-per-page" (Some "3"%string) (Some "5"%string);
                 NavigateNext; ResizeSignal 500; PageClick 0; NavigatePrev] = true)
    by (vm_compute; reflexivity).
  exact (conj H (currentPage_in_range 1024 ∅ _ H)).
Defined.

(** C3 as stated fails: [goToPage] takes any number in range.  With ten
    items, two per page (five pages), [goToPage(2.5)] leaves
    [currentPage = 2.5], which is no integer, and two clicks on the previous
    button then leave [currentPage = 0.5], below 1. *)
Lemma currentPage_leaves_the_range :
  let ts :=
    [Refresh ten_items;
     Reconfigure "items-per-page" (Some "3"%string) (Some "2"%string);
     NavigateTo (5 # 2)] in
  let s := exec ts (constructor 1024 ∅) in
  let s' := exec [NavigatePrev; NavigatePrev] s in
  (totalPages s = 5 /\ currentPage s = (5 # 2)%Q /\ ~ page_in_range s)
  /\ (totalPages s' = 5 /\ currentPage s' = (1 # 2)%Q /\ ~ page_in_range s').
Proof.
  cbv zeta. split.
  - split; [vm_compute; reflexivity|].
    match goal with |- ?cp = _ /\ _ =>
      assert (E : cp = (5 # 2)%Q) by (vm_compute; reflexivity) end.
    split; [exact E|].
    intros (c & Hc & _). rewrite E in Hc.
    unfold Qeq in Hc. simpl in Hc. lia.
  - split; [vm_compute; reflexivity|].
    match goal with |- ?cp = _ /\ _ =>
      assert (E : cp = (1 # 2)%Q) by (vm_compute; reflexivity) end.
    split; [exact E|].
    intros (c & Hc & _). rewrite E in Hc.
    unfold Qeq in Hc. simpl in Hc. lia.
Qed.

(** The stored negative page size of C2 breaks the range as well: with ten
    items, [items-per-page="-5"] gives [totalPages = -2] and clamps
    [currentPage] down to it. *)
Example negative_itemsPerPage_range :
  let s :=
    exec [Refresh ten_items;
          Reconfigure "items-per-page" (Some "3"%string) (Some "-5"%string)]
         (constructor 1024 ∅) in
  itemsPerPage s = -5 /\ totalPages s = -2 /\ currentPage s = (-2 # 1)%Q.
Proof. vm_compute. repeat split. Qed.

(** * Further properties of the component *)

(** ** The page size is never zero *)

Lemma attributeChangedCallback_itemsPerPage_any
  (name : string) (old new : option string) (s : Paginator) :
  itemsPerPage (attributeChangedCallback name old new s).2
  = if decide (old = new) then itemsPerPage s
    else if String.eqb name "items-per-page"
         then JS.or_nan (JS.parseInt (JS.to_string new)) 3
         else itemsPerPage s.
Proof.
  unfold attributeChangedCallback.
  destruct (decide (old = new)) as [_|_]; [reflexivity|].
  unfold and_then at 1. unfold run at 1.
  set (s1 := if String.eqb name "items-per-page" then _ else _).
  assert (Hs1 : itemsPerPage s1
                = if String.eqb name "items-per-page"
                  then JS.or_nan (JS.parseInt (JS.to_string new)) 3
                  else itemsPerPage s).
  { subst s1. destruct (String.eqb name "items-per-page"); [reflexivity|].
    destruct (String.eqb name "prev-text"); [reflexivity|].
    destruct (String.eqb name "next-text"); reflexivity. }
  rewrite <- Hs1. unfold and_then, run.
  pose proof (updatePagination_core s1) as H.
  pose proof (calculateTotalPages_config s1) as Hc.
  destruct (updatePagination s1) as [[|] s2]; simpl in *;
    unfold core in H; congruence.
Qed.

Lemma step_itemsPerPage (t : Transition) (s : Paginator) :
  itemsPerPage s <> 0 -> itemsPerPage (step t s).2 <> 0.
Proof.
  intros Hs. destruct t as [name old new|dom|p| | |k|width]; simpl step.
  - rewrite attributeChangedCallback_itemsPerPage_any.
    destruct (decide (old = new)); [assumption|].
    destruct (String.eqb name "items-per-page"); [|assumption].
    apply or_nan_nonzero.
  - rewrite refresh_eq.
    pose proof (settle_core (prepare (discoverItems dom) s)) as H.
    rewrite prepare_core in H. unfold core in H. congruence.
  - unfold goToPage. destruct (_ && _); [|assumption].
    pose proof (updateDisplay_core (set_currentPage p s)) as H.
    unfold core in H. simpl in H. congruence.
  - unfold prevBtn_click. destruct (JS.lt _ _); [|assumption].
    pose proof (updateDisplay_core (set_currentPage (currentPage s - 1)%Q s)) as H.
    unfold core in H. simpl in H. congruence.
  - unfold nextBtn_click. destruct (JS.lt _ _); [|assumption].
    pose proof (updateDisplay_core (set_currentPage (currentPage s + 1)%Q s)) as H.
    unfold core in H. simpl in H. congruence.
  - unfold numbersContainer_click.
    destruct (pageButtons s !! k) as [target|]; [|assumption].
    destruct (negb _); [|assumption].
    pose proof (updateDisplay_core
                  (set_currentPage (inject_Z (page target)) s)) as H.
    unfold core in H. simpl in H. congruence.
  - exact Hs.
Qed.

(** X1: whatever the attribute values, the arguments of [goToPage] and the
    order of the events, [itemsPerPage] is never 0: the quotient under
    [Math.ceil] in [calculateTotalPages] never divides by zero. *)
Theorem itemsPerPage_never_zero
  (width : Z) (hidden : gset nat) (ts : list Transition) :
  itemsPerPage (exec ts (constructor width hidden)) <> 0.
Proof.
  assert (H : forall s, itemsPerPage s <> 0 -> itemsPerPage (exec ts s) <> 0).
  { induction ts as [|t ts IH]; intros s Hs; [exact Hs|].
    apply (IH (step t s).2). now apply step_itemsPerPage. }
  apply H. simpl. lia.
Qed.

(** ** Navigating twice to the same page *)

(** X2: a second [goToPage] with the same argument does nothing: it
    completes, changes nothing and fires no event, whatever the first call
    did (navigated, was rejected, or threw in the display loop). *)
Theorem goToPage_again (s : Paginator) (pageNumber : Q) :
  goToPage pageNumber (goToPage pageNumber s).2
  = (Normal, (goToPage pageNumber s).2).
Proof.
  unfold goToPage at 2 3.
  destruct (JS.le 1 pageNumber && JS.le pageNumber (inject_Z (totalPages s))
            && negb (JS.eq pageNumber (currentPage s))) eqn:G.
  - pose proof (updateDisplay_core (set_currentPage pageNumber s)) as H.
    unfold core in H. simpl in H. injection H as _ _ _ Hcp Htp _ _.
    unfold goToPage. rewrite Hcp.
    assert (JS.eq pageNumber pageNumber = true) as ->
      by (apply eq_iff; reflexivity).
    now rewrite andb_false_r.
  - simpl. unfold goToPage. now rewrite G.
Qed.

(** ** Resizing twice *)

(** X3: the resize listener is idempotent: a second resize to the same
    width leaves the component and the page buttons as the first one
    did. *)
Theorem window_resize_idempotent (s : Paginator) (width : Z) :
  window_resize width (window_resize width s) = window_resize width s.
Proof.
  unfold window_resize, updatePaginationVisibility. simpl.
  unfold set_pageButtons. simpl. f_equal.
  rewrite <- list_fmap_compose. apply list_fmap_ext.
  intros i b _. reflexivity.
Qed.

(** ** What a display at an integer page leaves *)

Lemma eq_page (cp : Q) (c p : Z) :
  (cp == inject_Z c)%Q -> JS.eq (inject_Z p) cp = (p =? c).
Proof.
  intros Hc. rewrite <- eq_inject.
  destruct (JS.eq (inject_Z p) cp) eqn:E.
  - apply eq_iff in E. symmetry. apply eq_iff. now rewrite E.
  - apply eq_false_iff in E. symmetry. apply eq_false_iff.
    intros H. apply E. now rewrite H.
Qed.

Lemma page_eq (cp : Q) (c p : Z) :
  (cp == inject_Z c)%Q -> JS.eq cp (inject_Z p) = (c =? p).
Proof.
  intros Hc. rewrite <- eq_inject.
  destruct (JS.eq cp (inject_Z p)) eqn:E.
  - apply eq_iff in E. symmetry. apply eq_iff. now rewrite <- Hc.
  - apply eq_false_iff in E. symmetry. apply eq_false_iff.
    intros H. apply E. now rewrite Hc.
Qed.

(** On an integer page [c >= 1], with one button for each page,
    [updateDisplay] completes, fires one event and leaves the DOM showing
    page [c]. *)
Lemma updateDisplay_drawn (s : Paginator) (c : Z) :
  (currentPage s == inject_Z c)%Q -> 1 <= c ->
  page <$> pageButtons s = seqZ 1 (totalPages s) ->
  (updateDisplay s).1 = Normal
  /\ drawn (updateDisplay s).2 c
  /\ dispatched (updateDisplay s).2 = dispatched s ++ [pageChange s].
Proof.
  intros Hc Hc1 Hpages. rewrite updateDisplay_eq.
  destruct (showItems_integer_page s c (hiddenItems s ∪ list_to_set (items s)))
    as (T & HT & Hmem); [assumption|assumption|].
  rewrite HT. split; [reflexivity|]. split; [|reflexivity].
  unfold drawn. simpl.
  split.
  { rewrite <- Hpages. rewrite <- !list_fmap_compose. apply list_fmap_ext.
    intros i b _. unfold drawn_button. simpl. f_equal.
    now apply eq_page. }
  split; [apply (page_eq _ c 1 Hc)|].
  split; [now apply page_eq|].
  intros h Hh. rewrite elem_of_difference, elem_of_union, elem_of_list_to_set.
  rewrite Hmem. tauto.
Qed.

Lemma updateDisplay_strip (s : Paginator) :
  (controlsShown (updateDisplay s).2, prevLabel (updateDisplay s).2,
   nextLabel (updateDisplay s).2)
  = (controlsShown s, prevLabel s, nextLabel s).
Proof.
  rewrite updateDisplay_eq.
  destruct (showItems _ _ _ _ _) as [[|] hid]; reflexivity.
Qed.

Lemma drawn_pages (s : Paginator) (c : Z) :
  drawn s c -> page <$> pageButtons s = seqZ 1 (totalPages s).
Proof.
  intros (Hb & _). rewrite Hb. rewrite <- list_fmap_compose.
  apply list_fmap_id.
Qed.

(** The display of a component whose page is an integer in range, whose
    page count is the one of its items and which has one button for each
    page: it completes, fires one event, and leaves everything in step once
    the control strip is set. *)
Lemma display_consistent (x r : Paginator) (c : Z) :
  0 < itemsPerPage x ->
  (currentPage x == inject_Z c)%Q -> 1 <= c <= totalPages x ->
  totalPages x = pageCount x (items x) ->
  core r = core x ->
  drawn r c ->
  controlsShown r = (1 <? totalPages x) ->
  consistent r.
Proof.
  intros Hpp Hc Hc1 Htp Hcore Hd Hstrip.
  unfold core in Hcore. injection Hcore as Hi _ _ Hcp Ht Hits _.
  unfold consistent, pageCount. rewrite Hi, Ht, Hits, Hcp.
  split; [assumption|]. split; [exact Htp|]. split; [assumption|].
  exists c. split; [assumption|]. split; [assumption|exact Hd].
Qed.

Lemma drawn_set_controlsShown (v : bool) (r : Paginator) (c : Z) :
  drawn r c -> drawn (set_controlsShown v r) c.
Proof. destruct r. intros H. exact H. Qed.

Lemma drawn_set_labels (p n : string) (r : Paginator) (c : Z) :
  drawn r c -> drawn (set_labels p n r) c.
Proof. destruct r. intros H. exact H. Qed.

Lemma settle_consistent (x : Paginator) (c : Z) :
  0 < itemsPerPage x ->
  (currentPage x == inject_Z c)%Q -> 1 <= c <= totalPages x ->
  totalPages x = pageCount x (items x) ->
  page <$> pageButtons x = seqZ 1 (totalPages x) ->
  (updateDisplay x).1 = Normal
  /\ consistent (settle x)
  /\ dispatched (settle x) = dispatched x ++ [pageChange x]
  /\ (prevLabel (settle x), nextLabel (settle x)) = (prevLabel x, nextLabel x).
Proof.
  intros Hpp Hc Hc1 Htp Hpages.
  destruct (updateDisplay_drawn x c Hc ltac:(lia) Hpages) as (Hn & Hd & Hev).
  pose proof (updateDisplay_core x) as Hcore.
  pose proof (updateDisplay_strip x) as Hstrip.
  split; [exact Hn|].
  unfold settle. destruct (updateDisplay x) as [cpl r]. simpl in *. subst cpl.
  split.
  - apply (display_consistent x _ c Hpp Hc Hc1 Htp).
    + exact Hcore.
    + now apply drawn_set_controlsShown.
    + simpl. unfold core in Hcore. injection Hcore as _ _ _ _ -> _ _.
      reflexivity.
  - split; [exact Hev|]. simpl. injection Hstrip as _ -> ->. reflexivity.
Qed.

Lemma pageChange_core (a b : Paginator) :
  core a = core b -> pageChange a = pageChange b.
Proof.
  destruct a as [ipp pt nt cp tp its hid pd nd btn cs pl nl w ev].
  destruct b as [ipp' pt' nt' cp' tp' its' hid' pd' nd' btn' cs' pl' nl' w' ev'].
  unfold core. simpl. intros H. injection H as -> -> -> -> -> -> ->.
  reflexivity.
Qed.

(** The last page starts inside the items (or at 0 when there is none). *)
Lemma last_page_starts_inside (s : Paginator) (c : Z) :
  0 < itemsPerPage s -> totalPages s = pageCount s (items s) ->
  1 <= c <= totalPages s ->
  (c - 1) * itemsPerPage s <= Z.of_nat (length (items s))
  /\ (items s <> [] -> (c - 1) * itemsPerPage s < Z.of_nat (length (items s))).
Proof.
  intros Hpp Htp Hc. unfold pageCount, JS.or_default in Htp.
  pose proof (ceil_div_spec (Z.of_nat (length (items s))) (itemsPerPage s) Hpp) as Hq.
  assert (Hlen : items s <> [] -> 0 < Z.of_nat (length (items s))).
  { destruct (items s); [congruence|]. simpl. lia. }
  destruct (Z.eqb_spec (JS.ceil_div (Z.of_nat (length (items s))) (itemsPerPage s)) 0)
    as [E|E].
  - rewrite E in Hq. split; [nia|]. intros Hne. specialize (Hlen Hne). nia.
  - split; [nia|]. intros _. nia.
Qed.

(** In a component in step, the event that a display fires describes a
    page. *)
Lemma consistent_pageChange (s : Paginator) :
  consistent s -> describes_a_page (pageChange s).
Proof.
  intros (Hpp & Htp & _ & c & Hc & Hc1 & _).
  pose proof (last_page_starts_inside s c Hpp Htp Hc1) as [Hin _].
  pose proof (startIndex_integer s c Hc) as Hs.
  assert (Hppq : (0 < inject_Z (itemsPerPage s))%Q) by now apply inject_pos.
  unfold describes_a_page, pageChange. simpl.
  split; [assumption|]. split; [exists c; now split|].
  split; [reflexivity|].
  unfold JS.min, endIndex.
  destruct (Qle_bool (startIndex s + inject_Z (itemsPerPage s))
                     (inject_Z (Z.of_nat (length (items s))))) eqn:E.
  - split; lra.
  - split.
    + rewrite Hs. now rewrite <- Zle_Qle.
    + assert (JS.lt (inject_Z (Z.of_nat (length (items s))))
                    (startIndex s + inject_Z (itemsPerPage s)) = true) as Hlt
        by (unfold JS.lt; now rewrite E).
      apply lt_iff in Hlt. lra.
Qed.

Lemma updatePagination_snd (s : Paginator) :
  (updatePagination s).1
  = (updateDisplay (createPageNumbers (calculateTotalPages s))).1
  /\ (updatePagination s).2
     = settle (createPageNumbers (calculateTotalPages s)).
Proof.
  rewrite updatePagination_eq. cbv zeta. unfold settle.
  destruct (updateDisplay _) as [[|] s2]; split; reflexivity.
Qed.

(** The display, with the events it adds to. *)
Lemma settle_in_step (x : Paginator) (c : Z) :
  0 < itemsPerPage x ->
  (currentPage x == inject_Z c)%Q -> 1 <= c <= totalPages x ->
  totalPages x = pageCount x (items x) ->
  page <$> pageButtons x = seqZ 1 (totalPages x) ->
  Forall describes_a_page (dispatched x) ->
  (updateDisplay x).1 = Normal
  /\ consistent (settle x)
  /\ Forall describes_a_page (dispatched (settle x))
  /\ dispatched (settle x) = dispatched x ++ [pageChange x]
  /\ (prevLabel (settle x), nextLabel (settle x)) = (prevLabel x, nextLabel x).
Proof.
  intros Hpp Hc Hc1 Htp Hpages Hev.
  destruct (settle_consistent x c Hpp Hc Hc1 Htp Hpages)
    as (Hn & Hcons & Hd & Hl).
  split; [exact Hn|]. split; [exact Hcons|].
  split; [|split; [exact Hd|exact Hl]].
  rewrite Hd. apply Forall_app. split; [exact Hev|].
  apply Forall_singleton.
  rewrite <- (pageChange_core _ _ (settle_core x)).
  now apply consistent_pageChange.
Qed.

Lemma settled_ready (s : Paginator) : settled s -> ready s.
Proof.
  intros ((Hpp & _ & _ & c & Hc & Hc1 & _) & _ & Hev).
  split; [assumption|]. split; [exists c; split; [assumption|lia]|assumption].
Qed.

Lemma pristine_ready (s : Paginator) : pristine s -> ready s.
Proof.
  intros (w & h & ->). split; [simpl; lia|]. split; [|constructor].
  exists 1. split; [reflexivity|lia].
Qed.

Lemma consistent_set_labels (p n : string) (r : Paginator) :
  consistent r -> consistent (set_labels p n r).
Proof. destruct r. intros H. exact H. Qed.

(** [updatePagination] on a ready component completes, fires one event and
    leaves component and DOM in step; it keeps the texts and the labels. *)
Lemma updatePagination_in_step (s : Paginator) :
  ready s ->
  let r := updatePagination s in
  r.1 = Normal
  /\ consistent r.2
  /\ Forall describes_a_page (dispatched r.2)
  /\ (exists e, dispatched r.2 = dispatched s ++ [e])
  /\ (prevLabel r.2, nextLabel r.2) = (prevLabel s, nextLabel s)
  /\ (prevText r.2, nextText r.2) = (prevText s, nextText s).
Proof.
  intros (Hpp & (c & Hc & Hc1) & Hev). cbv zeta.
  destruct (updatePagination_snd s) as [H1 H2]. rewrite H1, H2.
  remember (createPageNumbers (calculateTotalPages s)) as x eqn:Ex.
  assert (Hx : core x
               = (itemsPerPage s, prevText s, nextText s,
                  (if JS.lt (inject_Z (pageCount s (items s))) (currentPage s)
                   then inject_Z (pageCount s (items s)) else currentPage s),
                  pageCount s (items s), items s, innerWidth s)).
  { rewrite Ex, calculateTotalPages_eq. reflexivity. }
  assert (Hpx : page <$> pageButtons x = seqZ 1 (totalPages x))
    by (rewrite Ex; apply (createPageNumbers_pages (calculateTotalPages s))).
  assert (Hlx : (prevLabel x, nextLabel x, dispatched x)
                = (prevLabel s, nextLabel s, dispatched s)).
  { rewrite Ex, calculateTotalPages_eq. reflexivity. }
  clear Ex.
  unfold core in Hx. injection Hx as Hi Hpt Hnt Hcp Htp Hits _.
  injection Hlx as Hpl Hnl Hd.
  pose proof (pageCount_pos s (items s) Hpp) as Hpos.
  destruct (clamp_in_range (currentPage s) c (pageCount s (items s)) Hc Hc1 Hpos)
    as (c' & Hc' & Hr).
  destruct (settle_in_step x c') as (Hn & Hcons & Hevs & Hdis & Hlab).
  - now rewrite Hi.
  - now rewrite Hcp.
  - now rewrite Htp.
  - unfold pageCount. rewrite Hi, Hits. exact Htp.
  - exact Hpx.
  - now rewrite Hd.
  - split; [exact Hn|]. split; [exact Hcons|]. split; [exact Hevs|].
    split; [exists (pageChange x); now rewrite Hdis, Hd|].
    split; [now rewrite Hlab, Hpl, Hnl|].
    pose proof (settle_core x) as Hcore. unfold core in Hcore.
    injection Hcore as _ -> -> _ _ _ _. now rewrite Hpt, Hnt.
Qed.

(** ** Transitions keep component and DOM in step *)

Lemma refresh_in_step (dom : Slotted) (s : Paginator) :
  ready s ->
  let r := refresh dom s in
  consistent r.2
  /\ Forall describes_a_page (dispatched r.2)
  /\ (exists e, dispatched r.2 = dispatched s ++ [e])
  /\ (prevLabel r.2, nextLabel r.2) = (prevLabel s, nextLabel s)
  /\ (prevText r.2, nextText r.2) = (prevText s, nextText s).
Proof.
  intros (Hpp & (c & Hc & Hc1) & Hev). cbv zeta. rewrite refresh_eq.
  set (its := discoverItems dom).
  remember (prepare its s) as x eqn:Ex.
  pose proof (prepare_core its s) as Hx. rewrite <- Ex in Hx.
  assert (Hpx : page <$> pageButtons x = seqZ 1 (totalPages x)).
  { rewrite Ex. apply (createPageNumbers_pages
      (set_currentPage (clampPage (currentPage s) (pageCount s its))
         (set_totalPages (pageCount s its) (set_items its s)))). }
  assert (Hlx : (prevLabel x, nextLabel x, dispatched x)
                = (prevLabel s, nextLabel s, dispatched s))
    by (rewrite Ex; reflexivity).
  clear Ex.
  unfold core in Hx. injection Hx as Hi Hpt Hnt Hcp Htp Hits _.
  injection Hlx as Hpl Hnl Hd.
  pose proof (pageCount_pos s its Hpp) as Hpos.
  destruct (clampPage_in_range (currentPage s) c (pageCount s its) Hc Hc1 Hpos)
    as (c' & Hc' & Hr).
  destruct (settle_in_step x c') as (Hn & Hcons & Hevs & Hdis & Hlab).
  - now rewrite Hi.
  - now rewrite Hcp.
  - now rewrite Htp.
  - unfold pageCount. rewrite Hi, Hits. exact Htp.
  - exact Hpx.
  - now rewrite Hd.
  - split; [exact Hcons|]. split; [exact Hevs|].
    split; [exists (pageChange x); now rewrite Hdis, Hd|].
    split; [now rewrite Hlab, Hpl, Hnl|].
    pose proof (settle_core x) as Hcore. unfold core in Hcore.
    injection Hcore as _ -> -> _ _ _ _. now rewrite Hpt, Hnt.
Qed.

Lemma refresh_settled (dom : Slotted) (s : Paginator) :
  ready s -> (prevLabel s, nextLabel s) = (prevText s, nextText s) ->
  settled (refresh dom s).2.
Proof.
  intros Hr Hl.
  destruct (refresh_in_step dom s Hr) as (Hc & Hev & _ & Hlab & Htx).
  split; [exact Hc|]. split; [|exact Hev]. now rewrite Hlab, Htx.
Qed.

Lemma attributeChangedCallback_eq (name : string) (old new : option string)
  (s : Paginator) :
  old <> new ->
  attributeChangedCallback name old new s
  = match updatePagination (configured name new s) with
    | (Normal, r) => (Normal, updateButtonText r)
    | (Throw, r) => (Throw, r)
    end.
Proof.
  intros Hne. unfold attributeChangedCallback.
  destruct (decide (old = new)) as [|_]; [contradiction|].
  unfold and_then, run. fold (configured name new s).
  destruct (updatePagination (configured name new s)) as [[|] r]; reflexivity.
Qed.

Lemma configured_ready (name : string) (old new : option string) (s : Paginator) :
  in_domain (Reconfigure name old new) = true ->
  ready s -> ready (configured name new s).
Proof.
  intros Hdom (Hpp & Hc & Hev). unfold configured. simpl in Hdom.
  destruct (String.eqb name "items-per-page").
  - split; [|split; assumption]. simpl.
    pose proof (or_nan_nonzero (JS.parseInt (JS.to_string new))).
    apply andb_true_iff in Hdom as [_ Hdom].
    apply Z.leb_le in Hdom. lia.
  - destruct (String.eqb name "prev-text"); [split; [|split]; assumption|].
    destruct (String.eqb name "next-text"); split; [|split| |split]; assumption.
Qed.

Lemma attributeChangedCallback_settled (name : string) (old new : option string)
  (s : Paginator) :
  in_domain (Reconfigure name old new) = true ->
  old <> new -> ready s ->
  let r := attributeChangedCallback name old new s in
  r.1 = Normal /\ settled r.2
  /\ exists e, dispatched r.2 = dispatched s ++ [e].
Proof.
  intros Hdom Hne Hr. cbv zeta.
  rewrite (attributeChangedCallback_eq name old new s Hne).
  pose proof (configured_ready name old new s Hdom Hr) as Hr1.
  destruct (updatePagination_in_step _ Hr1) as (Hn & Hc & Hev & He & _ & _).
  assert (Hd : dispatched (configured name new s) = dispatched s).
  { unfold configured.
    destruct (String.eqb name "items-per-page"); [reflexivity|].
    destruct (String.eqb name "prev-text"); [reflexivity|].
    destruct (String.eqb name "next-text"); reflexivity. }
  rewrite Hd in He.
  destruct (updatePagination (configured name new s)) as [cpl r].
  simpl in Hn, Hc, Hev, He. subst cpl. simpl.
  split; [reflexivity|]. split; [|exact He].
  split; [now apply consistent_set_labels|]. split; [reflexivity|exact Hev].
Qed.

(** Navigation to an integer page in range from a component in step. *)
Lemma navigate_settled (s : Paginator) (p : Q) (z : Z) :
  settled s -> (p == inject_Z z)%Q -> 1 <= z <= totalPages s ->
  let r := updateDisplay (set_currentPage p s) in
  r.1 = Normal /\ settled r.2
  /\ dispatched r.2 = dispatched s ++ [pageChange (set_currentPage p s)]
  /\ drawn r.2 z.
Proof.
  intros ((Hpp & Htp & Hstrip & c & Hc & Hc1 & Hd) & Hlab & Hev) Hp Hz.
  cbv zeta. set (x := set_currentPage p s).
  destruct (updateDisplay_drawn x z Hp ltac:(lia)) as (Hn & Hdr & Hdis).
  { exact (drawn_pages s c Hd). }
  pose proof (updateDisplay_core x) as Hcore.
  pose proof (updateDisplay_strip x) as Hs.
  split; [exact Hn|]. split; [|split; [exact Hdis|exact Hdr]].
  injection Hs as Hcs Hpl Hnl.
  split.
  - apply (display_consistent x _ z); try assumption.
    rewrite Hcs. exact Hstrip.
  - split.
    + rewrite Hpl, Hnl. unfold core in Hcore.
      injection Hcore as _ -> -> _ _ _ _. exact Hlab.
    + rewrite Hdis. apply Forall_app. split; [exact Hev|].
      apply Forall_singleton.
      rewrite <- (pageChange_core _ _ Hcore).
      apply consistent_pageChange.
      apply (display_consistent x _ z); try assumption.
      rewrite Hcs. exact Hstrip.
Qed.

Lemma window_resize_settled (width : Z) (s : Paginator) :
  settled s -> settled (window_resize width s).
Proof.
  intros ((Hpp & Htp & Hstrip & c & Hc & Hc1 & Hb & Hp & Hn & Hh) & Hlab & Hev).
  split; [|split; assumption].
  split; [assumption|]. split; [assumption|]. split; [assumption|].
  exists c. split; [assumption|]. split; [assumption|].
  split; [|split; [assumption|split; assumption]].
  unfold window_resize, updatePaginationVisibility. simpl.
  rewrite Hb. rewrite <- list_fmap_compose. apply list_fmap_ext.
  intros i n _. reflexivity.
Qed.

Lemma constructor_rejects (width : Z) (hidden : gset nat) (p : Q) :
  goToPage p (constructor width hidden) = (Normal, constructor width hidden).
Proof.
  unfold goToPage. simpl.
  destruct (JS.le 1 p) eqn:E1; [|reflexivity].
  destruct (JS.le p (inject_Z 1)) eqn:E2; [|reflexivity].
  apply le_iff in E1, E2.
  assert (JS.eq p 1 = true) as ->; [|reflexivity].
  apply eq_iff. apply Qle_antisym; assumption.
Qed.

(** A transition in the documented domain keeps everything in step. *)
Lemma step_settled (t : Transition) (s : Paginator) :
  in_domain t = true -> settled s -> settled (step t s).2.
Proof.
  intros Hdom Hs.
  pose proof (settled_ready s Hs) as Hr.
  destruct t as [name old new|dom|p| | |k|width]; simpl step.
  - destruct (decide (old = new)) as [Heq|Hne].
    + unfold attributeChangedCallback.
      destruct (decide (old = new)); [exact Hs|contradiction].
    + now apply attributeChangedCallback_settled.
  - apply refresh_settled; [exact Hr|]. now destruct Hs as (_ & Hl & _).
  - unfold goToPage.
    destruct (JS.le 1 p && JS.le p (inject_Z (totalPages s))
              && negb (JS.eq p (currentPage s))) eqn:G; [|exact Hs].
    apply andb_true_iff in G as [G _]. apply andb_true_iff in G as [G1 G2].
    apply le_iff in G1, G2. simpl in Hdom.
    apply is_integer_iff in Hdom as [z Hz].
    apply (navigate_settled s p z Hs Hz).
    rewrite Hz in G1, G2. rewrite one_le_inject in G1.
    rewrite <- Zle_Qle in G2. lia.
  - unfold prevBtn_click.
    destruct (JS.lt 1 (currentPage s)) eqn:G; [|exact Hs].
    destruct Hs as (Hcons & Hrest).
    pose proof Hcons as (_ & _ & _ & c & Hc & Hc1 & _).
    apply lt_iff in G.
    apply (navigate_settled s _ (c - 1) (conj Hcons Hrest)).
    + rewrite Hc. unfold Z.sub. rewrite inject_Z_plus. reflexivity.
    + rewrite Hc in G. change 1%Q with (inject_Z 1) in G.
      rewrite <- Zlt_Qlt in G. lia.
  - unfold nextBtn_click.
    destruct (JS.lt (currentPage s) (inject_Z (totalPages s))) eqn:G; [|exact Hs].
    destruct Hs as (Hcons & Hrest).
    pose proof Hcons as (_ & _ & _ & c & Hc & Hc1 & _).
    apply lt_iff in G.
    apply (navigate_settled s _ (c + 1) (conj Hcons Hrest)).
    + rewrite Hc. rewrite inject_Z_plus. reflexivity.
    + rewrite Hc in G. rewrite <- Zlt_Qlt in G. lia.
  - unfold numbersContainer_click.
    destruct (pageButtons s !! k) as [target|] eqn:Hk; [|exact Hs].
    destruct (negb (JS.eq (inject_Z (page target)) (currentPage s))); [|exact Hs].
    apply (navigate_settled s _ (page target) Hs); [reflexivity|].
    destruct Hs as ((_ & _ & _ & c & _ & _ & Hd) & _).
    pose proof (drawn_pages s c Hd) as Hp.
    assert (Hin : page target ∈ seqZ 1 (totalPages s)).
    { rewrite <- Hp. apply list_elem_of_fmap. exists target.
      split; [reflexivity|]. apply list_elem_of_lookup. eauto. }
    apply elem_of_seqZ in Hin. lia.
  - unfold run. simpl. now apply window_resize_settled.
Qed.

(** From the component as constructed, a transition in the documented
    domain either changes nothing but the width of the window, or puts
    everything in step. *)
Lemma step_pristine (t : Transition) (s : Paginator) :
  in_domain t = true ->
  pristine s -> pristine (step t s).2 \/ settled (step t s).2.
Proof.
  intros Hdom Hs.
  pose proof (pristine_ready s Hs) as Hr.
  destruct Hs as (w & h & ->).
  destruct t as [name old new|dom|p| | |k|width]; simpl step.
  - destruct (decide (old = new)) as [Heq|Hne].
    + unfold attributeChangedCallback.
      destruct (decide (old = new)); [|contradiction].
      left. now exists w, h.
    + right. now apply attributeChangedCallback_settled.
  - right. now apply refresh_settled.
  - left. rewrite constructor_rejects. now exists w, h.
  - left. now exists w, h.
  - left. now exists w, h.
  - left. now exists w, h.
  - left. now exists width, h.
Qed.

Lemma exec_settled (ts : list Transition) : forall s,
  forallb in_domain ts = true -> settled s -> settled (exec ts s).
Proof.
  induction ts as [|t ts IH]; intros s Hdom Hs; [exact Hs|].
  simpl in Hdom. apply andb_true_iff in Hdom as [Ht Hts].
  apply (IH (step t s).2 Hts). now apply step_settled.
Qed.

Lemma exec_in_step (ts : list Transition) : forall s,
  forallb in_domain ts = true ->
  pristine s \/ settled s -> pristine (exec ts s) \/ settled (exec ts s).
Proof.
  induction ts as [|t ts IH]; intros s Hdom Hs; [exact Hs|].
  simpl in Hdom. apply andb_true_iff in Hdom as [Ht Hts].
  apply (IH (step t s).2 Hts).
  destruct Hs as [Hs|Hs]; [now apply step_pristine|].
  right. now apply step_settled.
Qed.

(** The component is in step once the timer of [connectedCallback] has
    run. *)
Lemma connectedCallback_settled (dom : Slotted) (width : Z) (hidden : gset nat) :
  settled (connectedCallback dom (constructor width hidden)).2.
Proof.
  pose proof (pristine_ready (constructor width hidden)
                ltac:(now exists width, hidden)) as Hr.
  destruct (refresh_in_step dom _ Hr) as (Hc & Hev & _ & Hl & Ht).
  unfold connectedCallback, and_then, run. unfold refresh in *.
  destruct (initializePagination dom (constructor width hidden)) as [[|] r];
    simpl in *.
  - split; [now apply consistent_set_labels|]. split; [reflexivity|exact Hev].
  - split; [exact Hc|]. split; [|exact Hev]. now rewrite Hl, Ht.
Qed.

Lemma ten_by_three_settled : settled ten_by_three.
Proof. exact (connectedCallback_settled ten_items 1024 ∅). Qed.

(** X4: from the constructor on, after every sequence of transitions in
    which [goToPage] is only given integers and every [items-per-page]
    value parses to [NaN] or to an integer from 0 to [2 ^ 53] (white space
    of every kind skipped), the component is either still as the
    constructor left it (nothing but resizes and rejected navigation
    happened) or component and DOM are in step: the page count is the one
    of the items, there is one button for each page with the one of the
    current page active, the previous and next buttons are disabled exactly
    on the first and the last page, the control strip is shown exactly when
    there is more than one page, and of the items exactly those of the slice
    of the current page are not hidden. *)
Theorem display_in_step (width : Z) (hidden : gset nat) (ts : list Transition) :
  forallb in_domain ts = true ->
  pristine (exec ts (constructor width hidden))
  \/ consistent (exec ts (constructor width hidden)).
Proof.
  intros Hdom.
  destruct (exec_in_step ts (constructor width hidden) Hdom) as [H|(H & _)].
  - left. now exists width, hidden.
  - now left.
  - now right.
Qed.

Lemma display_in_step_witness :
  let ts :=
    [Reconfigure "items-per-page" None (Some "4"%string); Refresh ten_items;
     NavigateNext; PageClick 2; ResizeSignal 500; NavigateTo 1] in
  forallb in_domain ts = true
  /\ (pristine (exec ts (constructor 1024 ∅))
      \/ consistent (exec ts (constructor 1024 ∅))).
Proof.
  cbv zeta.
  assert (H : forallb in_domain
                [Reconfigure "items-per-page" None (Some "4"%string);
                 Refresh ten_items; NavigateNext; PageClick 2; ResizeSignal 500;
                 NavigateTo 1] = true)
    by (vm_compute; reflexivity).
  exact (conj H (display_in_step 1024 ∅ _ H)).
Defined.

(** X5: under the same condition every [pagechange] event fired so far
    describes a page: [currentPage] is an integer between 1 and
    [totalPages], [itemsPerPage] is positive, [startIndex] is
    [(currentPage - 1) * itemsPerPage], and
    [startIndex <= endIndex <= startIndex + itemsPerPage]. *)
Theorem events_describe_pages (width : Z) (hidden : gset nat) (ts : list Transition) :
  forallb in_domain ts = true ->
  Forall describes_a_page (dispatched (exec ts (constructor width hidden))).
Proof.
  intros Hdom.
  destruct (exec_in_step ts (constructor width hidden) Hdom)
    as [(w & h & ->)|(_ & _ & H)].
  - left. now exists width, hidden.
  - constructor.
  - exact H.
Qed.

Lemma events_describe_pages_witness :
  let ts :=
    [Refresh ten_items; NavigateTo 4;
     Reconfigure "items-per-page" (Some "3"%string) (Some "5"%string)] in
  forallb in_domain ts = true
  /\ Forall describes_a_page (dispatched (exec ts (constructor 1024 ∅))).
Proof.
  cbv zeta.
  assert (H : forallb in_domain
                [Refresh ten_items; NavigateTo 4;
                 Reconfigure "items-per-page" (Some "3"%string) (Some "5"%string)]
              = true)
    by (vm_compute; reflexivity).
  exact (conj H (events_describe_pages 1024 ∅ _ H)).
Defined.

(** X6: under the same condition the labels of the previous and next
    buttons are the configured texts. *)
Theorem labels_show_texts (width : Z) (hidden : gset nat) (ts : list Transition) :
  forallb in_domain ts = true ->
  let s := exec ts (constructor width hidden) in
  prevLabel s = prevText s /\ nextLabel s = nextText s.
Proof.
  intros Hdom. cbv zeta.
  destruct (exec_in_step ts (constructor width hidden) Hdom)
    as [(w & h & ->)|(_ & H & _)].
  - left. now exists width, hidden.
  - split; reflexivity.
  - injection H as -> ->. split; reflexivity.
Qed.

Lemma labels_show_texts_witness :
  let ts :=
    [Reconfigure "prev-text" None (Some "Back"%string); Refresh ten_items;
     Reconfigure "next-text" None (Some "More"%string);
     Reconfigure "prev-text" (Some "Back"%string) None] in
  forallb in_domain ts = true
  /\ prevLabel (exec ts (constructor 1024 ∅)) = prevText (exec ts (constructor 1024 ∅)).
Proof.
  cbv zeta.
  assert (H : forallb in_domain
                [Reconfigure "prev-text" None (Some "Back"%string);
                 Refresh ten_items;
                 Reconfigure "next-text" None (Some "More"%string);
                 Reconfigure "prev-text" (Some "Back"%string) None] = true)
    by (vm_compute; reflexivity).
  exact (conj H (proj1 (labels_show_texts 1024 ∅ _ H))).
Defined.

(** ** The three click listeners *)

(** The page a component in step shows is its current page. *)
Lemma settled_drawn (s : Paginator) (c : Z) :
  settled s -> (currentPage s == inject_Z c)%Q ->
  1 <= c <= totalPages s /\ drawn s c.
Proof.
  intros ((_ & _ & _ & c' & Hc' & Hr & Hd) & _) Hc.
  assert (c' = c) as <-; [|now split].
  apply inject_Z_injective. now rewrite <- Hc', Hc.
Qed.

(** X7: on a component in step, on page [c], a click on the previous
    button does nothing when the button is disabled (that is on page 1);
    otherwise it completes, moves to page [c - 1], shows that page, keeps
    everything in step and fires one event, for page [c - 1] and starting at
    [(c - 2) * itemsPerPage]. *)
Theorem prevBtn_click_spec (s : Paginator) (c : Z) :
  settled s -> (currentPage s == inject_Z c)%Q ->
  (prevDisabled s = true -> prevBtn_click s = (Normal, s))
  /\ (prevDisabled s = false ->
      let r := prevBtn_click s in
      r.1 = Normal
      /\ (currentPage r.2 == inject_Z (c - 1))%Q
      /\ 1 <= c - 1
      /\ settled r.2
      /\ drawn r.2 (c - 1)
      /\ exists e, dispatched r.2 = dispatched s ++ [e]
                   /\ (ev_currentPage e == inject_Z (c - 1))%Q
                   /\ (ev_startIndex e == inject_Z ((c - 2) * itemsPerPage s))%Q).
Proof.
  intros Hs Hc. destruct (settled_drawn s c Hs Hc) as (Hr & _ & Hp & _).
  rewrite Hp. unfold prevBtn_click. split.
  - intros H1. apply Z.eqb_eq in H1. subst c.
    assert (JS.lt 1 (currentPage s) = false) as ->; [|reflexivity].
    apply lt_false_iff. rewrite Hc. apply Qle_refl.
  - intros H1. apply Z.eqb_neq in H1. cbv zeta.
    assert (JS.lt 1 (currentPage s) = true) as ->.
    { apply lt_iff. rewrite Hc. change 1%Q with (inject_Z 1).
      rewrite <- Zlt_Qlt. lia. }
    assert (Hq : (currentPage s - 1 == inject_Z (c - 1))%Q).
    { rewrite Hc. unfold Z.sub. rewrite inject_Z_plus. reflexivity. }
    destruct (navigate_settled s _ (c - 1) Hs Hq ltac:(lia))
      as (Hn & Hset & Hdis & Hd).
    pose proof (updateDisplay_core (set_currentPage (currentPage s - 1)%Q s)) as Hcore.
    unfold core in Hcore. simpl in Hcore. injection Hcore as _ _ _ Hcp _ _ _.
    split; [exact Hn|]. split; [now rewrite Hcp|]. split; [lia|].
    split; [exact Hset|]. split; [exact Hd|].
    eexists. split; [exact Hdis|]. simpl. split; [exact Hq|].
    rewrite (startIndex_integer
               (set_currentPage (currentPage s - 1)%Q s) (c - 1) Hq).
    simpl. now replace (c - 1 - 1) with (c - 2) by lia.
Qed.

Lemma prevBtn_click_spec_witness :
  let s := (goToPage 3 ten_by_three).2 in
  (currentPage (prevBtn_click s).2 == inject_Z (3 - 1))%Q.
Proof.
  cbv zeta.
  assert (Hs : settled (goToPage 3 ten_by_three).2)
    by exact (step_settled (NavigateTo 3) ten_by_three eq_refl ten_by_three_settled).
  assert (Hc : (currentPage (goToPage 3 ten_by_three).2 == inject_Z 3)%Q)
    by (vm_compute; reflexivity).
  assert (Hd : prevDisabled (goToPage 3 ten_by_three).2 = false)
    by (vm_compute; reflexivity).
  exact (proj1 (proj2 (proj2 (prevBtn_click_spec _ 3 Hs Hc) Hd))).
Defined.

(** X8: on a component in step, on page [c], a click on the next button
    does nothing when the button is disabled (that is on the last page);
    otherwise it completes, moves to page [c + 1], shows that page, keeps
    everything in step and fires one event, for page [c + 1] and starting at
    [c * itemsPerPage]. *)
Theorem nextBtn_click_spec (s : Paginator) (c : Z) :
  settled s -> (currentPage s == inject_Z c)%Q ->
  (nextDisabled s = true -> nextBtn_click s = (Normal, s))
  /\ (nextDisabled s = false ->
      let r := nextBtn_click s in
      r.1 = Normal
      /\ (currentPage r.2 == inject_Z (c + 1))%Q
      /\ c + 1 <= totalPages s
      /\ settled r.2
      /\ drawn r.2 (c + 1)
      /\ exists e, dispatched r.2 = dispatched s ++ [e]
                   /\ (ev_currentPage e == inject_Z (c + 1))%Q
                   /\ (ev_startIndex e == inject_Z (c * itemsPerPage s))%Q).
Proof.
  intros Hs Hc. destruct (settled_drawn s c Hs Hc) as (Hr & _ & _ & Hn & _).
  rewrite Hn. unfold nextBtn_click. split.
  - intros H1. apply Z.eqb_eq in H1.
    assert (JS.lt (currentPage s) (inject_Z (totalPages s)) = false) as ->;
      [|reflexivity].
    apply lt_false_iff. rewrite Hc, <- H1. apply Qle_refl.
  - intros H1. apply Z.eqb_neq in H1. cbv zeta.
    assert (JS.lt (currentPage s) (inject_Z (totalPages s)) = true) as ->.
    { apply lt_iff. rewrite Hc. rewrite <- Zlt_Qlt. lia. }
    assert (Hq : (currentPage s + 1 == inject_Z (c + 1))%Q).
    { rewrite Hc. rewrite inject_Z_plus. reflexivity. }
    destruct (navigate_settled s _ (c + 1) Hs Hq ltac:(lia))
      as (Hnorm & Hset & Hdis & Hd).
    pose proof (updateDisplay_core (set_currentPage (currentPage s + 1)%Q s)) as Hcore.
    unfold core in Hcore. simpl in Hcore. injection Hcore as _ _ _ Hcp _ _ _.
    split; [exact Hnorm|]. split; [now rewrite Hcp|]. split; [lia|].
    split; [exact Hset|]. split; [exact Hd|].
    eexists. split; [exact Hdis|]. simpl. split; [exact Hq|].
    rewrite (startIndex_integer
               (set_currentPage (currentPage s + 1)%Q s) (c + 1) Hq).
    simpl. now replace (c + 1 - 1) with c by lia.
Qed.

Lemma nextBtn_click_spec_witness :
  (currentPage (nextBtn_click ten_by_three).2 == inject_Z (1 + 1))%Q.
Proof.
  assert (Hc : (currentPage ten_by_three == inject_Z 1)%Q)
    by (vm_compute; reflexivity).
  assert (Hd : nextDisabled ten_by_three = false)
    by (vm_compute; reflexivity).
  exact (proj1 (proj2 (proj2 (nextBtn_click_spec _ 1 ten_by_three_settled Hc) Hd))).
Defined.

(** X9: on a component in step, the [k]-th page button (counting from 0)
    is the button of page [k + 1].  A click on it does nothing when it is
    the active one; otherwise it completes, moves to page [k + 1], shows
    that page, keeps everything in step and fires one event. *)
Theorem numbersContainer_click_spec (s : Paginator) (k : nat) (target : PageButton) :
  settled s -> pageButtons s !! k = Some target ->
  page target = Z.of_nat k + 1
  /\ (active target = true -> numbersContainer_click k s = (Normal, s))
  /\ (active target = false ->
      let r := numbersContainer_click k s in
      r.1 = Normal
      /\ currentPage r.2 = inject_Z (Z.of_nat k + 1)
      /\ settled r.2
      /\ drawn r.2 (Z.of_nat k + 1)
      /\ exists e, dispatched r.2 = dispatched s ++ [e]
                   /\ ev_currentPage e = inject_Z (Z.of_nat k + 1)).
Proof.
  intros Hs Hk.
  pose proof Hs as ((_ & _ & _ & c & Hc & Hr & Hb & _) & _).
  rewrite Hb in Hk. rewrite list_lookup_fmap in Hk.
  destruct (seqZ 1 (totalPages s) !! k) as [i|] eqn:Hi; [|discriminate].
  apply lookup_seqZ in Hi as [-> Hlt]. simpl in Hk. injection Hk as <-.
  simpl. split; [lia|].
  unfold numbersContainer_click. rewrite Hb, list_lookup_fmap.
  assert (Hl : seqZ 1 (totalPages s) !! k = Some (1 + Z.of_nat k))
    by (apply lookup_seqZ; split; [reflexivity|assumption]).
  rewrite Hl. simpl.
  rewrite (eq_page (currentPage s) c (1 + Z.of_nat k) Hc).
  replace (1 + Z.of_nat k) with (Z.of_nat k + 1) by lia.
  split.
  - intros ->. reflexivity.
  - intros ->. simpl.
    destruct (navigate_settled s (inject_Z (Z.of_nat k + 1)) (Z.of_nat k + 1) Hs)
      as (Hn & Hset & Hdis & Hd); [reflexivity|lia|].
    pose proof (updateDisplay_core
                  (set_currentPage (inject_Z (Z.of_nat k + 1)) s)) as Hcore.
    unfold core in Hcore. simpl in Hcore. injection Hcore as _ _ _ Hcp _ _ _.
    split; [exact Hn|]. split; [exact Hcp|]. split; [exact Hset|].
    split; [exact Hd|]. eexists. split; [exact Hdis|]. reflexivity.
Qed.

Lemma numbersContainer_click_spec_witness :
  page {| page := 3; active := false; shown := true |} = Z.of_nat 2 + 1
  /\ currentPage (numbersContainer_click 2 ten_by_three).2
     = inject_Z (Z.of_nat 2 + 1).
Proof.
  assert (Hk : pageButtons ten_by_three !! 2%nat
               = Some {| page := 3; active := false; shown := true |})
    by (vm_compute; reflexivity).
  pose proof (numbersContainer_click_spec ten_by_three 2 _ ten_by_three_settled Hk)
    as (H1 & _ & H3).
  exact (conj H1 (proj1 (proj2 (H3 eq_refl)))).
Defined.

(** ** The items and the buttons a component in step shows *)

(** X10: on a component in step, on page [c], with no element listed
    twice, the visible items are exactly those at the indices of the slice
    of page [c] that exist; there are at most [itemsPerPage] of them, and at
    least one unless there is no item at all. *)
Theorem visible_items_are_the_page (s : Paginator) (c : Z) :
  settled s -> (currentPage s == inject_Z c)%Q -> NoDup (items s) ->
  (forall j, j ∈ visibleItemIndices (viewModel s) <->
             (j < length (items s))%nat /\ on_page (itemsPerPage s) c j)
  /\ (length (visibleItemIndices (viewModel s)) <= Z.to_nat (itemsPerPage s))%nat
  /\ (items s <> [] -> visibleItemIndices (viewModel s) <> []).
Proof.
  intros Hs Hc Hnd.
  destruct (settled_drawn s c Hs Hc) as (Hr & _ & _ & _ & Hh).
  destruct Hs as ((Hpp & Htp & _) & _).
  assert (Hvis : forall j, j ∈ visibleItemIndices (viewModel s) <->
                   (j < length (items s))%nat /\ on_page (itemsPerPage s) c j).
  { intros j. unfold viewModel. simpl.
    rewrite list_elem_of_filter, elem_of_seq. unfold item_visible. split.
    - intros [(item & Hj & Hout) Hlt]. split; [lia|].
      assert (Hin : item ∈ items s) by (apply list_elem_of_lookup; eauto).
      destruct (decide (Exists (fun j' => items s !! j' = Some item
                                          /\ on_page (itemsPerPage s) c j')
                               (seq 0 (length (items s))))) as [E|E].
      + apply Exists_exists in E as (j' & _ & Hj' & Hon).
        now rewrite (NoDup_lookup _ _ _ _ Hnd Hj Hj').
      + exfalso. apply Hout. apply (Hh item Hin).
        intros (j' & Hj' & Hon). apply E. apply Exists_exists.
        exists j'. split; [|now split].
        apply elem_of_seq. apply lookup_lt_Some in Hj'. lia.
    - intros [Hlt Hon]. split; [|lia].
      destruct (lookup_lt_is_Some_2 _ _ Hlt) as [item Hj].
      exists item. split; [assumption|].
      intros Hhid. apply (Hh item) in Hhid.
      + apply Hhid. now exists j.
      + apply list_elem_of_lookup. eauto. }
  split; [exact Hvis|]. split.
  - assert (Hsub : visibleItemIndices (viewModel s)
                   ⊆+ seq (Z.to_nat ((c - 1) * itemsPerPage s))
                          (Z.to_nat (itemsPerPage s))).
    { apply NoDup_submseteq.
      - unfold viewModel. simpl. apply NoDup_filter, NoDup_seq.
      - intros j Hj. apply Hvis in Hj as [_ Hon]. unfold on_page in Hon.
        apply elem_of_seq. nia. }
    apply submseteq_length in Hsub. now rewrite length_seq in Hsub.
  - intros Hne.
    destruct (last_page_starts_inside s c Hpp Htp Hr) as [_ Hin].
    specialize (Hin Hne).
    assert (Hj : Z.to_nat ((c - 1) * itemsPerPage s)
                 ∈ visibleItemIndices (viewModel s)).
    { apply Hvis. unfold on_page. split; nia. }
    intros E. rewrite E in Hj. now apply not_elem_of_nil in Hj.
Qed.

Lemma visible_items_are_the_page_witness :
  (length (visibleItemIndices (viewModel ten_by_three)) <= Z.to_nat 3)%nat.
Proof.
  assert (Hc : (currentPage ten_by_three == inject_Z 1)%Q)
    by (vm_compute; reflexivity).
  assert (Hnd : NoDup (items ten_by_three)).
  { assert (E : items ten_by_three = seq 0 10) by (vm_compute; reflexivity).
    rewrite E. apply NoDup_seq. }
  exact (proj1 (proj2
    (visible_items_are_the_page ten_by_three 1 ten_by_three_settled Hc Hnd))).
Defined.

(** The window on an integer page, in integers. *)
Lemma shown_near (s : Paginator) (c p dc : Z) :
  (currentPage s == inject_Z c)%Q -> 0 <= dc ->
  shouldShowPageNumber s p dc = true ->
  p = 1 \/ p = totalPages s \/ c - dc / 2 <= p <= c + dc / 2.
Proof.
  intros Hc Hdc H. pose proof (Z.div_pos dc 2 Hdc ltac:(lia)) as Hr.
  apply shouldShowPageNumber_iff in H as [H|[H|[H|H]]].
  - now left.
  - right. now left.
  - right. right. rewrite Hc in H. rewrite inject_Z_injective in H. lia.
  - right. right. apply Qabs_diff_Qle_condition in H. rewrite Hc in H.
    rewrite <- inject_Z_plus in H.
    unfold Qminus in H. rewrite <- inject_Z_opp, <- inject_Z_plus in H.
    rewrite <- !Zle_Qle in H. lia.
Qed.

(** X11: on a component in step, at most [displayCount + 2] page buttons
    are displayed: five on a window narrower than 768, seven otherwise. *)
Theorem window_size (s : Paginator) :
  settled s ->
  (length (visiblePages s) <= Z.to_nat (displayCount s + 2))%nat
  /\ (length (visiblePages s) <= if (innerWidth s <? 768)%Z then 5 else 7)%nat.
Proof.
  intros Hs.
  pose proof Hs as ((_ & _ & _ & c & Hc & _ & Hb & _) & _).
  assert (Hdc : displayCount s = 3 \/ displayCount s = 5).
  { unfold displayCount. destruct (innerWidth s <? 768); [now left|now right]. }
  assert (Hsub : visiblePages s
                 ⊆+ [1; totalPages s]
                    ++ seqZ (c - displayCount s / 2) (displayCount s)).
  { apply NoDup_submseteq.
    - unfold visiblePages.
      apply (sublist_NoDup _ (page <$> pageButtons s)).
      + rewrite (drawn_pages s c); [apply NoDup_seqZ|].
        now destruct (settled_drawn s c Hs Hc).
      + apply fmap_sublist, sublist_filter.
    - intros p Hp. unfold visiblePages in Hp.
      apply list_elem_of_fmap in Hp as (b & -> & Hb').
      apply list_elem_of_filter in Hb' as [Hshown Hin].
      rewrite Hb in Hin. apply list_elem_of_fmap in Hin as (i & -> & _).
      simpl in Hshown |- *.
      apply (shown_near s c) in Hshown; [|assumption|lia].
      rewrite !elem_of_cons, elem_of_seqZ.
      destruct Hshown as [->|[->|Hnear]].
      + now left.
      + right. now left.
      + right. right. destruct Hdc as [E|E]; rewrite E in Hnear |- *;
          [change (3 / 2) with 1 in *|change (5 / 2) with 2 in *]; lia. }
  apply submseteq_length in Hsub.
  rewrite length_app, length_seqZ in Hsub. simpl in Hsub.
  unfold displayCount in *.
  destruct (innerWidth s <? 768); simpl in *; split; lia.
Qed.

Lemma window_size_witness :
  (length (visiblePages thirty_narrow) <= Z.to_nat (displayCount thirty_narrow + 2))%nat.
Proof.
  exact (proj1 (window_size thirty_narrow
                  (connectedCallback_settled _ 500 ∅))).
Defined.

(** ** A change of the page size, a change of the items *)

(** X12: a changed [items-per-page] attribute never sends the component
    back to page 1 by itself: whatever the state, for a new value that
    parses to [NaN] or to a safe integer, the page size becomes the parsed
    number (3 for [NaN] and 0), the page count becomes the one of the items
    for the new page size, the items stay, and the current page stays unless
    it lies beyond the new page count, in which case it becomes that
    count. *)
Theorem itemsPerPage_change_clamps (s : Paginator) (old new : option string) :
  old <> new ->
  JS.safe (JS.parseInt (JS.to_string new)) = true ->
  let r := (attributeChangedCallback "items-per-page" old new s).2 in
  itemsPerPage r = JS.or_nan (JS.parseInt (JS.to_string new)) 3
  /\ items r = items s
  /\ totalPages r = pageCount r (items s)
  /\ currentPage r
     = if JS.lt (inject_Z (totalPages r)) (currentPage s)
       then inject_Z (totalPages r) else currentPage s.
Proof.
  intros Hne _. cbv zeta.
  rewrite (attributeChangedCallback_eq _ old new s Hne).
  remember (configured "items-per-page" new s) as s1 eqn:E1.
  assert (Hs1 : (itemsPerPage s1, items s1, currentPage s1)
                = (JS.or_nan (JS.parseInt (JS.to_string new)) 3, items s,
                   currentPage s)) by (rewrite E1; reflexivity).
  clear E1. injection Hs1 as Hi1 Hit1 Hcp1.
  pose proof (updatePagination_core s1) as H.
  rewrite calculateTotalPages_eq in H. unfold core in H. cbv zeta in H.
  assert (Hr : forall r, core r = core (set_currentPage
         (if JS.lt (inject_Z (pageCount s1 (items s1))) (currentPage s1)
          then inject_Z (pageCount s1 (items s1))
          else currentPage s1) (set_totalPages (pageCount s1 (items s1)) s1)) ->
    itemsPerPage r = JS.or_nan (JS.parseInt (JS.to_string new)) 3
  /\ items r = items s
  /\ totalPages r = pageCount r (items s)
  /\ currentPage r
     = if JS.lt (inject_Z (totalPages r)) (currentPage s)
       then inject_Z (totalPages r) else currentPage s).
  { intros r Hc. unfold core in Hc. simpl in Hc.
    injection Hc as Hi _ _ Hcp Htp Hits _.
    unfold pageCount in *. rewrite Hi, Hits, Htp, Hcp, Hi1, Hit1, Hcp1.
    repeat split. }
  destruct (updatePagination s1) as [[|] r]; apply Hr; exact H.
Qed.

Lemma itemsPerPage_change_clamps_witness :
  let s := (goToPage 4 ten_by_three).2 in
  let r := (attributeChangedCallback "items-per-page"
              (Some "3"%string) (Some "5"%string) s).2 in
  Some "3"%string <> Some "5"%string
  /\ JS.safe (JS.parseInt (JS.to_string (Some "5"%string))) = true
  /\ totalPages r = pageCount r (items s).
Proof.
  cbv zeta.
  assert (H : Some "3"%string <> Some "5"%string) by discriminate.
  assert (Hs : JS.safe (JS.parseInt (JS.to_string (Some "5"%string))) = true)
    by (vm_compute; reflexivity).
  exact (conj H (conj Hs (proj1 (proj2 (proj2
    (itemsPerPage_change_clamps (goToPage 4 ten_by_three).2 _ _ H Hs)))))).
Defined.

(** The page of the specification's third scenario: ten items, page 4 of
    4, then five per page: two pages, page 2. *)
Example itemsPerPage_3_to_5_on_page_4 :
  let s := (goToPage 4 ten_by_three).2 in
  let r := (attributeChangedCallback "items-per-page"
              (Some "3"%string) (Some "5"%string) s).2 in
  currentPage s = 4%Q /\ totalPages r = 2 /\ currentPage r = 2%Q
  /\ visibleItemIndices (viewModel r) = [5; 6; 7; 8; 9]%nat.
Proof. vm_compute. repeat split. Qed.





Lemma core_fields (a : Paginator) ipp pt nt cp tp its w :
  core a = (ipp, pt, nt, cp, tp, its, w) ->
  itemsPerPage a = ipp /\ currentPage a = cp /\ totalPages a = tp
  /\ items a = its.
Proof. unfold core. intros H. injection H. auto. Qed.

(** X14: [refresh()] on a component in step, on page [c]: whatever the new
    items, the page count becomes theirs, the current page stays [c] unless
    [c] lies beyond the new page count, in which case it becomes that count,
    and everything is in step again. *)
Theorem refresh_keeps_the_page (s : Paginator) (dom : Slotted) (c : Z) :
  settled s -> (currentPage s == inject_Z c)%Q ->
  let r := (refresh dom s).2 in
  items r = discoverItems dom
  /\ totalPages r = pageCount s (discoverItems dom)
  /\ (currentPage r == inject_Z (Z.min c (totalPages r)))%Q
  /\ settled r.
Proof.
  intros Hs Hc. cbv zeta.
  destruct (settled_drawn s c Hs Hc) as (Hr & _).
  pose proof (settle_core (prepare (discoverItems dom) s)) as H.
  rewrite prepare_core in H. rewrite <- refresh_eq in H.
  apply core_fields in H as (_ & Hcp & Htp & Hits).
  split; [exact Hits|]. split; [exact Htp|]. split.
  - rewrite Hcp, Htp. unfold clampPage. cbv zeta.
    assert (JS.lt (currentPage s) 1 = false) as ->.
    { apply lt_false_iff. rewrite Hc. apply one_le_inject. lia. }
    destruct (JS.lt (inject_Z (pageCount s (discoverItems dom))) (currentPage s))
      eqn:E.
    + apply lt_iff in E. rewrite Hc in E. rewrite <- Zlt_Qlt in E.
      now rewrite Z.min_r by lia.
    + apply lt_false_iff in E. rewrite Hc in E. rewrite <- Zle_Qle in E.
      now rewrite Z.min_l by lia.
  - apply refresh_settled; [now apply settled_ready|].
    now destruct Hs as (_ & Hl & _).
Qed.

Lemma refresh_keeps_the_page_witness :
  items (refresh {| assignedElements := Some (seq 0 4); lightItems := [] |}
           (goToPage 3 ten_by_three).2).2
  = discoverItems {| assignedElements := Some (seq 0 4); lightItems := [] |}.
Proof.
  assert (Hc : (currentPage (goToPage 3 ten_by_three).2 == inject_Z 3)%Q)
    by (vm_compute; reflexivity).
  exact (proj1 (refresh_keeps_the_page (goToPage 3 ten_by_three).2 _ 3
    (step_settled (NavigateTo 3) ten_by_three eq_refl ten_by_three_settled) Hc)).
Defined.

(** ** The first display *)

Lemma connectedCallback_eq (dom : Slotted) (s : Paginator) :
  connectedCallback dom s
  = (Normal, updateButtonText (settle (prepare (discoverItems dom) s))).
Proof.
  unfold connectedCallback, and_then, run.
  now rewrite initializePagination_eq.
Qed.

(** Three items per page. *)
Lemma pageCount_by_three (s : Paginator) (its : list nat) :
  itemsPerPage s = 3 ->
  pageCount s its = Z.max 1 ((Z.of_nat (length its) + 2) / 3).
Proof.
  intros H3. unfold pageCount, JS.or_default. rewrite H3.
  rewrite ceil_div_pos by lia.
  pose proof (Z.div_mod (- Z.of_nat (length its)) 3 ltac:(lia)).
  pose proof (Z.div_mod (Z.of_nat (length its) + 2) 3 ltac:(lia)).
  pose proof (Z.mod_pos_bound (- Z.of_nat (length its)) 3 ltac:(lia)).
  pose proof (Z.mod_pos_bound (Z.of_nat (length its) + 2) 3 ltac:(lia)).
  destruct (Z.eqb_spec (- (- Z.of_nat (length its) / 3)) 0); lia.
Qed.

Lemma clampPage_first (pages : Z) : 1 <= pages -> clampPage 1 pages = 1%Q.
Proof.
  intros Hp. unfold clampPage. cbv zeta.
  change (JS.lt 1 1) with false. cbv iota.
  assert (JS.lt (inject_Z pages) 1 = false) as ->; [|reflexivity].
  apply lt_false_iff. now apply one_le_inject.
Qed.

(** X15: once the timer of [connectedCallback] has run on a new component,
    whatever is slotted: everything is in step, the component is on page 1
    with three items per page and the default labels, and exactly one event
    has been fired, for page 1, from index 0 up to the smaller of 3 and the
    number of items. *)
Theorem connectedCallback_first_page (dom : Slotted) (width : Z) (hidden : gset nat) :
  let r := connectedCallback dom (constructor width hidden) in
  let count := Z.of_nat (length (discoverItems dom)) in
  r.1 = Normal
  /\ settled r.2
  /\ items r.2 = discoverItems dom
  /\ itemsPerPage r.2 = 3
  /\ totalPages r.2 = Z.max 1 ((count + 2) / 3)
  /\ currentPage r.2 = 1%Q
  /\ (prevLabel r.2, nextLabel r.2) = ("Prev"%string, "Next"%string)
  /\ exists e, dispatched r.2 = [e]
               /\ ev_currentPage e = 1%Q /\ ev_totalPages e = totalPages r.2
               /\ ev_itemsPerPage e = 3 /\ (ev_startIndex e == 0)%Q
               /\ (ev_endIndex e == inject_Z (Z.min 3 count))%Q.
Proof.
  cbv zeta.
  pose proof (connectedCallback_settled dom width hidden) as Hs.
  rewrite connectedCallback_eq in *.
  set (its := discoverItems dom) in *.
  set (s0 := constructor width hidden) in *.
  pose proof (pageCount_by_three s0 its eq_refl) as Hpc.
  assert (Hpos : 1 <= pageCount s0 its) by (rewrite Hpc; lia).
  pose proof (clampPage_first _ Hpos) as Hcp.
  pose proof (prepare_core its s0) as Hx.
  change (currentPage s0) with 1%Q in Hx. rewrite Hcp in Hx.
  remember (prepare its s0) as x eqn:Ex.
  assert (Hxb : page <$> pageButtons x = seqZ 1 (totalPages x)).
  { rewrite Ex. apply (createPageNumbers_pages
      (set_currentPage (clampPage (currentPage s0) (pageCount s0 its))
         (set_totalPages (pageCount s0 its) (set_items its s0)))). }
  assert (Hxd : dispatched x = []) by (rewrite Ex; reflexivity).
  clear Ex.
  pose proof (settle_core x) as Hcore. rewrite Hx in Hcore.
  apply core_fields in Hx as (Hxi & Hxc & Hxt & Hxits).
  destruct (settle_consistent x 1) as (_ & _ & Hdis & _).
  { rewrite Hxi. reflexivity. }
  { rewrite Hxc. reflexivity. }
  { rewrite Hxt. lia. }
  { unfold pageCount. rewrite Hxt, Hxi, Hxits. reflexivity. }
  { exact Hxb. }
  rewrite Hxd in Hdis. simpl in Hdis.
  remember (settle x) as r eqn:Er. clear Er.
  pose proof Hs as (_ & Hl & _).
  pose proof Hcore as Hcore'. unfold core in Hcore'.
  apply core_fields in Hcore as (Hi & Hc & Ht & Hits).
  simpl in Hl |- *.
  split; [reflexivity|]. split; [exact Hs|].
  split; [exact Hits|]. split; [exact Hi|].
  split; [now rewrite Ht, Hpc|]. split; [exact Hc|].
  split.
  { apply (f_equal (fun t => (t.1.1.1.1.1.2, t.1.1.1.1.2))) in Hcore'.
    exact Hcore'. }
  exists (pageChange x). split; [exact Hdis|].
  unfold pageChange. simpl.
  split; [exact Hxc|]. split; [now rewrite Hxt, Ht|]. split; [exact Hxi|].
  unfold endIndex, startIndex. rewrite Hxc, Hxi, Hxits.
  change (itemsPerPage s0) with 3.
  split; [reflexivity|].
  unfold JS.min.
  destruct (Qle_bool ((1 - 1) * inject_Z 3 + inject_Z 3)
                     (inject_Z (Z.of_nat (length its)))) eqn:E.
  - apply Qle_bool_iff in E. unfold Qle in E. simpl in E.
    rewrite Z.min_l by lia. reflexivity.
  - assert (JS.lt (inject_Z (Z.of_nat (length its)))
                  ((1 - 1) * inject_Z 3 + inject_Z 3) = true) as Hlt
      by (unfold JS.lt; now rewrite E).
    apply lt_iff in Hlt. unfold Qlt in Hlt. simpl in Hlt.
    rewrite Z.min_r by lia. reflexivity.
Qed.

(** ** Back and forth *)

Lemma showItems_S fuel i stop its hid :
  showItems (S fuel) i stop its hid
  = if JS.lt i stop && JS.lt i (inject_Z (Z.of_nat (length its))) then
      match JS.index its i with
      | Some item => showItems fuel (i + 1)%Q stop its (hid ∖ {[item]})
      | None => (Throw, hid)
      end
    else (Normal, hid).
Proof. reflexivity. Qed.

(** The display loop only touches elements of the array. *)
Lemma showItems_outside (its : list nat) (stop : Q) (h : nat) fuel :
  h ∉ its -> forall i hid,
  h ∈ (showItems fuel i stop its hid).2 <-> h ∈ hid.
Proof.
  intros Hout. induction fuel as [|fuel IH]; intros i hid; [reflexivity|].
  rewrite showItems_S.
  destruct (JS.lt i stop && JS.lt i (inject_Z (Z.of_nat (length its))));
    [|reflexivity].
  destruct (JS.index its i) as [item|] eqn:Hi; [|reflexivity].
  rewrite IH. destruct (index_Some_nat its i item Hi) as (k & _ & Hk).
  assert (item ∈ its) by (apply list_elem_of_lookup; eauto).
  set_solver.
Qed.

(** [updateDisplay] leaves the style of every other element alone. *)
Lemma updateDisplay_outside (s : Paginator) (h : nat) :
  h ∉ items s ->
  h ∈ hiddenItems (updateDisplay s).2 <-> h ∈ hiddenItems s.
Proof.
  intros Hout. rewrite updateDisplay_eq.
  pose proof (showItems_outside (items s) (endIndex s) h
                (S (length (items s))) Hout (startIndex s)
                (hiddenItems s ∪ list_to_set (items s))) as H.
  destruct (showItems _ _ _ _ _) as [[|] hid]; simpl in H |- *;
    rewrite H; set_solver.
Qed.

Lemma shouldShowPageNumber_ext (a b : Paginator) (p dc : Z) :
  totalPages a = totalPages b -> (currentPage a == currentPage b)%Q ->
  shouldShowPageNumber a p dc = shouldShowPageNumber b p dc.
Proof.
  intros Ht Hc. unfold shouldShowPageNumber, JS.eq, JS.le. rewrite Ht.
  assert (Qeq_bool (inject_Z p) (currentPage a)
          = Qeq_bool (inject_Z p) (currentPage b)) as -> by now rewrite Hc.
  destruct (_ || _); [reflexivity|]. now rewrite Hc.
Qed.

(** What a component in step draws is determined by its fields and by the
    styles of the elements that are not its items. *)
Lemma rendered_determined (a b : Paginator) :
  settled a -> settled b ->
  (itemsPerPage a, prevText a, nextText a, totalPages a, items a, innerWidth a)
  = (itemsPerPage b, prevText b, nextText b, totalPages b, items b, innerWidth b) ->
  (currentPage a == currentPage b)%Q ->
  (forall h, h ∉ items a -> (h ∈ hiddenItems a <-> h ∈ hiddenItems b)) ->
  rendered a = rendered b.
Proof.
  intros Ha Hb Hf Hcp Hout.
  injection Hf as Hi Hpt Hnt Ht Hits Hw.
  pose proof Ha as ((_ & _ & Hsa & c & Hc & _ & Hba & Hpa & Hna & Hha) & Hla & _).
  assert (Hcb : (currentPage b == inject_Z c)%Q) by now rewrite <- Hcp.
  destruct (settled_drawn b c Hb Hcb) as (_ & Hbb & Hpb & Hnb & Hhb).
  destruct Hb as ((_ & _ & Hsb & _) & Hlb & _).
  injection Hla as Hla1 Hla2. injection Hlb as Hlb1 Hlb2.
  unfold rendered.
  assert (Hh : hiddenItems a = hiddenItems b).
  { apply set_eq. intros h.
    destruct (decide (h ∈ items a)) as [Hin|Hnin]; [|now apply Hout].
    rewrite (Hha h Hin). rewrite Hits in Hin. rewrite (Hhb h Hin).
    now rewrite Hi, Hits. }
  assert (Hbtn : pageButtons a = pageButtons b).
  { rewrite Hba, Hbb, Ht. apply list_fmap_ext. intros k i _.
    unfold drawn_button, displayCount. rewrite Hw. f_equal.
    now apply shouldShowPageNumber_ext. }
  rewrite Hh, Hbtn, Hpa, Hpb, Hna, Hnb, Hsa, Hsb, Ht.
  now rewrite Hla1, Hla2, Hlb1, Hlb2, Hpt, Hnt.
Qed.

(** X16: on a component in step, not on the first page, a click on the
    previous button followed by a click on the next button brings back the
    same page and the same DOM (the view model too); two events have been
    fired on the way. *)
Theorem prev_then_next (s : Paginator) (c : Z) :
  settled s -> (currentPage s == inject_Z c)%Q -> 1 < c ->
  let r := (nextBtn_click (prevBtn_click s).2).2 in
  (currentPage r == currentPage s)%Q
  /\ totalPages r = totalPages s
  /\ items r = items s
  /\ rendered r = rendered s
  /\ viewModel r = viewModel s
  /\ exists e1 e2, dispatched r = dispatched s ++ [e1; e2].
Proof.
  intros Hs Hc Hc1. cbv zeta.
  destruct (settled_drawn s c Hs Hc) as (Hr & _).
  unfold prevBtn_click.
  assert (JS.lt 1 (currentPage s) = true) as ->.
  { apply lt_iff. rewrite Hc. change 1%Q with (inject_Z 1).
    rewrite <- Zlt_Qlt. lia. }
  remember (set_currentPage (currentPage s - 1)%Q s) as x1 eqn:E1.
  assert (Hq1 : (currentPage s - 1 == inject_Z (c - 1))%Q).
  { rewrite Hc. unfold Z.sub. rewrite inject_Z_plus. reflexivity. }
  destruct (navigate_settled s _ (c - 1) Hs Hq1 ltac:(lia))
    as (_ & Hs1 & Hd1 & _).
  rewrite <- E1 in Hs1, Hd1.
  pose proof (updateDisplay_core x1) as Hcore1.
  assert (Hx1 : core x1 = (itemsPerPage s, prevText s, nextText s,
                           (currentPage s - 1)%Q, totalPages s, items s,
                           innerWidth s)) by (rewrite E1; reflexivity).
  assert (Hh1 : hiddenItems x1 = hiddenItems s) by (rewrite E1; reflexivity).
  pose proof (updateDisplay_outside x1) as Hout1.
  rewrite Hx1 in Hcore1. clear E1.
  remember (updateDisplay x1).2 as s1 eqn:Es1. clear Es1.
  unfold nextBtn_click.
  pose proof Hcore1 as Hf1. unfold core in Hf1.
  injection Hf1 as Hi1 Hpt1 Hnt1 Hcp1 Ht1 Hits1 Hw1.
  assert (JS.lt (currentPage s1) (inject_Z (totalPages s1)) = true) as ->.
  { apply lt_iff. rewrite Hcp1, Ht1, Hq1. rewrite <- Zlt_Qlt. lia. }
  remember (set_currentPage (currentPage s1 + 1)%Q s1) as x2 eqn:E2.
  assert (Hq2 : (currentPage s1 + 1 == inject_Z c)%Q).
  { rewrite Hcp1, Hq1. change 1%Q with (inject_Z 1).
    rewrite <- inject_Z_plus. now replace (c - 1 + 1) with c by lia. }
  destruct (navigate_settled s1 _ c Hs1 Hq2 ltac:(lia))
    as (_ & Hs2 & Hd2 & _).
  rewrite <- E2 in Hs2, Hd2.
  pose proof (updateDisplay_core x2) as Hcore2.
  assert (Hx2 : core x2 = (itemsPerPage s1, prevText s1, nextText s1,
                           (currentPage s1 + 1)%Q, totalPages s1, items s1,
                           innerWidth s1)) by (rewrite E2; reflexivity).
  assert (Hh2 : hiddenItems x2 = hiddenItems s1) by (rewrite E2; reflexivity).
  pose proof (updateDisplay_outside x2) as Hout2.
  assert (Hit2 : items x2 = items s1) by (rewrite E2; reflexivity).
  assert (Hit1 : items x1 = items s).
  { apply (f_equal (fun t => t.1.2)) in Hx1. exact Hx1. }
  rewrite Hx2 in Hcore2. clear E2.
  remember (updateDisplay x2).2 as s2 eqn:Es2. clear Es2.
  unfold core in Hcore2.
  injection Hcore2 as Hi2 Hpt2 Hnt2 Hcp2 Ht2 Hits2 Hw2.
  assert (Hcp : (currentPage s2 == currentPage s)%Q)
    by now rewrite Hcp2, Hq2, Hc.
  assert (Hrend : rendered s2 = rendered s).
  { apply rendered_determined; try assumption.
    - now rewrite Hi2, Hpt2, Hnt2, Ht2, Hits2, Hw2, Hi1, Hpt1, Hnt1, Ht1, Hits1, Hw1.
    - intros h Hh. rewrite Hits2, Hits1 in Hh.
      rewrite Hout2 by now rewrite Hit2, Hits1.
      rewrite Hh2. rewrite Hout1 by now rewrite Hit1.
      now rewrite Hh1. }
  split; [exact Hcp|]. split; [now rewrite Ht2, Ht1|].
  split; [now rewrite Hits2, Hits1|]. split; [exact Hrend|].
  split.
  - apply viewModel_ext; [now rewrite Hits2, Hits1|exact Hrend].
  - eexists _, _. rewrite Hd2, Hd1, <- app_assoc. reflexivity.
Qed.

Lemma prev_then_next_witness :
  let s := (goToPage 3 ten_by_three).2 in
  totalPages (nextBtn_click (prevBtn_click s).2).2 = totalPages s.
Proof.
  cbv zeta.
  assert (Hc : (currentPage (goToPage 3 ten_by_three).2 == inject_Z 3)%Q)
    by (vm_compute; reflexivity).
  exact (proj1 (proj2 (prev_then_next (goToPage 3 ten_by_three).2 3
    (step_settled (NavigateTo 3) ten_by_three eq_refl ten_by_three_settled)
    Hc ltac:(lia)))).
Defined.

(** ** Reading a page number back from a button *)

Lemma digit_cases (d : Z) :
  0 <= d < 10 ->
  d = 0 \/ d = 1 \/ d = 2 \/ d = 3 \/ d = 4 \/ d = 5 \/ d = 6 \/ d = 7
  \/ d = 8 \/ d = 9.
Proof. lia. Qed.

Lemma digit_value_char (d : Z) :
  0 <= d < 10 -> JS.digit_value 10 (digit_char d) = Some d.
Proof.
  intros Hd.
  destruct (digit_cases d Hd) as [->|[->|[->|[->|[->|[->|[->|[->|[->| ->]]]]]]]]];
    reflexivity.
Qed.

Lemma digits_String (radix : Z) (c : ascii) (r : string) (acc : option Z) :
  JS.digits radix (String c r) acc
  = match JS.digit_value radix c with
    | Some d => JS.digits radix r (Some (radix * default 0 acc + d))
    | None => acc
    end.
Proof. reflexivity. Qed.

Lemma decimal_O (n : Z) (acc : string) :
  decimal O n acc = String (digit_char (n mod 10)) acc.
Proof. reflexivity. Qed.

Lemma decimal_S (fuel : nat) (n : Z) (acc : string) :
  decimal (S fuel) n acc
  = if n <? 10 then String (digit_char (n mod 10)) acc
    else decimal fuel (n / 10) (String (digit_char (n mod 10)) acc).
Proof. reflexivity. Qed.

(** Reading the digits written by [decimal] appends them to the number
    read so far. *)
Lemma digits_decimal (fuel : nat) : forall (n : Z) (acc : string) (a : option Z),
  0 <= n < 2 ^ (Z.of_nat fuel + 1) ->
  exists k, 0 <= k
    /\ JS.digits 10 (decimal fuel n acc) a
       = JS.digits 10 acc (Some (default 0 a * 10 ^ k + n)).
Proof.
  assert (Hlast : forall n acc a, 0 <= n < 10 ->
            JS.digits 10 (String (digit_char (n mod 10)) acc) a
            = JS.digits 10 acc (Some (default 0 a * 10 ^ 1 + n))).
  { intros n acc a Hn. rewrite digits_String.
    rewrite Z.mod_small by lia. rewrite (digit_value_char n Hn).
    f_equal. f_equal. lia. }
  induction fuel as [|fuel IH]; intros n acc a Hn.
  - exists 1. split; [lia|]. rewrite decimal_O. apply Hlast.
    change (2 ^ (Z.of_nat 0 + 1)) with 2 in Hn. lia.
  - rewrite decimal_S. destruct (Z.ltb_spec n 10) as [Hlt|Hge].
    + exists 1. split; [lia|]. apply Hlast. lia.
    + assert (Hpow : 2 ^ (Z.of_nat (S fuel) + 1) = 2 * 2 ^ (Z.of_nat fuel + 1)).
      { rewrite Nat2Z.inj_succ. unfold Z.succ.
        replace (Z.of_nat fuel + 1 + 1) with (Z.succ (Z.of_nat fuel + 1)) by lia.
        apply Z.pow_succ_r. lia. }
      destruct (IH (n / 10) (String (digit_char (n mod 10)) acc) a)
        as (k & Hk & E).
      { split; [apply Z.div_pos; lia|].
        apply Z.div_lt_upper_bound; lia. }
      exists (Z.succ k). split; [lia|]. rewrite E, digits_String.
      rewrite digit_value_char by (apply Z.mod_pos_bound; lia).
      f_equal. f_equal. change (default 0 (Some ?x)) with x.
      rewrite Z.pow_succ_r by assumption.
      pose proof (Z.div_mod n 10 ltac:(lia)). lia.
Qed.

(** The text of a positive number starts with a digit from 1 to 9. *)
Lemma decimal_head (fuel : nat) : forall (n : Z) (acc : string),
  1 <= n < 2 ^ (Z.of_nat fuel + 1) ->
  exists d rest, 1 <= d <= 9 /\ decimal fuel n acc = String (digit_char d) rest.
Proof.
  induction fuel as [|fuel IH]; intros n acc Hn.
  - change (2 ^ (Z.of_nat 0 + 1)) with 2 in Hn.
    exists n, acc. split; [lia|]. rewrite decimal_O.
    now rewrite Z.mod_small by lia.
  - rewrite decimal_S. destruct (Z.ltb_spec n 10) as [Hlt|Hge].
    + exists n, acc. split; [lia|]. now rewrite Z.mod_small by lia.
    + apply IH.
      assert (Hpow : 2 ^ (Z.of_nat (S fuel) + 1) = 2 * 2 ^ (Z.of_nat fuel + 1)).
      { rewrite Nat2Z.inj_succ. unfold Z.succ.
        replace (Z.of_nat fuel + 1 + 1) with (Z.succ (Z.of_nat fuel + 1)) by lia.
        apply Z.pow_succ_r. lia. }
      split.
      * apply Z.div_le_lower_bound; lia.
      * apply Z.div_lt_upper_bound; lia.
Qed.

(** [parseInt] on a text that starts with a digit from 1 to 9: no white
    space, no sign, no hexadecimal prefix. *)
Lemma parseInt_digit_head (d : Z) (rest : string) :
  1 <= d <= 9 ->
  JS.parseInt (String (digit_char d) rest)
  = match JS.digits 10 (String (digit_char d) rest) None with
    | Some m => Some (1 * m)
    | None => None
    end.
Proof.
  intros Hd.
  destruct (digit_cases d ltac:(lia))
    as [->|[->|[->|[->|[->|[->|[->|[->|[->| ->]]]]]]]]];
    try lia; reflexivity.
Qed.

Lemma parseInt_minus_digit_head (d : Z) (rest : string) :
  1 <= d <= 9 ->
  JS.parseInt (String "-" (String (digit_char d) rest))
  = match JS.digits 10 (String (digit_char d) rest) None with
    | Some m => Some (-1 * m)
    | None => None
    end.
Proof.
  intros Hd.
  destruct (digit_cases d ltac:(lia))
    as [->|[->|[->|[->|[->|[->|[->|[->|[->| ->]]]]]]]]];
    try lia; reflexivity.
Qed.

Lemma log2_fuel (n : Z) :
  1 <= n -> 1 <= n < 2 ^ (Z.of_nat (Z.to_nat (Z.log2 n)) + 1).
Proof.
  intros Hn. rewrite Z2Nat.id by apply Z.log2_nonneg.
  pose proof (Z.log2_spec n ltac:(lia)) as H. unfold Z.succ in H. lia.
Qed.

(** X17: the page number of a button is stored as text in [dataset.page]
    and read back with [parseInt].  For every safe integer (up to [2 ^ 53]
    in absolute value, where the text of a number is its plain decimal
    text), [parseInt] of its text is that integer; so, with a safe page
    count, every button that [createPageNumbers] makes is the button of a
    page between 1 and [totalPages] and reads back as that page. *)
Theorem parseInt_reads_page_numbers (n : Z) (s : Paginator) :
  Z.abs n <= 2 ^ 53 -> totalPages s <= 2 ^ 53 ->
  JS.parseInt (Number_toString n) = Some n
  /\ Forall (fun b => 1 <= page b <= totalPages s
                      /\ JS.parseInt (Number_toString (page b)) = Some (page b))
            (pageButtons (createPageNumbers s)).
Proof.
  intros _ _.
  assert (Hpos : forall m, 1 <= m ->
            JS.digits 10 (decimal (Z.to_nat (Z.log2 m)) m "") None = Some m).
  { intros m Hm. pose proof (log2_fuel m Hm) as Hf.
    destruct (digits_decimal (Z.to_nat (Z.log2 m)) m "" None) as (k & _ & E);
      [lia|].
    rewrite E. change (default 0 None) with 0. cbn [JS.digits].
    now f_equal. }
  assert (Hall : forall m, JS.parseInt (Number_toString m) = Some m).
  { intros m. unfold Number_toString.
    destruct (Z.ltb_spec m 0) as [Hneg|Hnn].
    - pose proof (log2_fuel (- m) ltac:(lia)) as Hf.
      destruct (decimal_head _ (- m) "" Hf) as (d & rest & Hd & E).
      rewrite E, parseInt_minus_digit_head by assumption.
      rewrite <- E, Hpos by lia. f_equal. lia.
    - destruct (Z.eq_dec m 0) as [->|Hne]; [vm_compute; reflexivity|].
      pose proof (log2_fuel m ltac:(lia)) as Hf.
      destruct (decimal_head _ m "" Hf) as (d & rest & Hd & E).
      rewrite E, parseInt_digit_head by assumption.
      rewrite <- E, Hpos by lia. f_equal. lia. }
  split; [apply Hall|]. apply Forall_forall. intros b Hb.
  split; [|apply Hall].
  assert (Hp : page b ∈ page <$> pageButtons (createPageNumbers s))
    by (apply list_elem_of_fmap; eauto).
  rewrite createPageNumbers_pages in Hp. apply elem_of_seqZ in Hp. lia.
Qed.

Lemma parseInt_reads_page_numbers_witness :
  JS.parseInt (Number_toString 12) = Some 12.
Proof.
  assert (H1 : Z.abs 12 <= 2 ^ 53) by (vm_compute; discriminate).
  assert (H2 : totalPages ten_by_three <= 2 ^ 53) by (vm_compute; discriminate).
  exact (proj1 (parseInt_reads_page_numbers 12 ten_by_three H1 H2)).
Defined.

(** The texts of the first page numbers. *)
Example Number_toString_examples :
  Number_toString 1 = "1"%string /\ Number_toString 10 = "10"%string
  /\ Number_toString 207 = "207"%string /\ Number_toString (-5) = "-5"%string.
Proof. vm_compute. repeat split. Qed.

(** ** A display that throws *)

(** X18: when [updateDisplay] throws, it has hidden every item and shown
    none, has fired no event, and has left the navigation buttons, the page
    buttons, the control strip and the fields of the component as they
    were. *)
Theorem updateDisplay_throw (s : Paginator) :
  (updateDisplay s).1 = Throw ->
  let r := (updateDisplay s).2 in
  hiddenItems r = hiddenItems s ∪ list_to_set (items s)
  /\ (forall j, ~ item_visible r j)
  /\ dispatched r = dispatched s
  /\ (prevDisabled r, nextDisabled r, pageButtons r, controlsShown r)
     = (prevDisabled s, nextDisabled s, pageButtons s, controlsShown s)
  /\ core r = core s.
Proof.
  intros Hthrow. cbv zeta.
  pose proof Hthrow as H. rewrite updateDisplay_completion in H.
  apply showItems_completion in H as [Htest Hidx].
  revert Hthrow. rewrite updateDisplay_eq.
  rewrite (showItems_throw _ _ _ _ _ Htest Hidx). intros _. simpl.
  split; [reflexivity|]. split; [|repeat split].
  intros j (item & Hj & Hout). apply Hout.
  apply elem_of_union. right. apply elem_of_list_to_set.
  apply list_elem_of_lookup. eauto.
Qed.

Lemma updateDisplay_throw_witness :
  let s := set_currentPage (5 # 2) ten_by_three in
  (updateDisplay s).1 = Throw /\ dispatched (updateDisplay s).2 = dispatched s.
Proof.
  cbv zeta.
  assert (H : (updateDisplay (set_currentPage (5 # 2) ten_by_three)).1 = Throw)
    by (vm_compute; reflexivity).
  exact (conj H (proj1 (proj2 (proj2
    (updateDisplay_throw (set_currentPage (5 # 2) ten_by_three) H))))).
Defined.

(** ** The values of [items-per-page] and the pages the statements cover *)

(** [parseInt] skips a no-break space (U+00A0) as it skips a space: the
    value U+00A0 [-5] parses to [-5], and is outside the domain as [-5]
    is.  So is a text of digits above [2 ^ 53], which [parseInt] would
    round; [2 ^ 53] itself is inside. *)
Example in_domain_examples :
  let nbsp_minus_5 :=
    String (ascii_of_nat 194) (String (ascii_of_nat 160) "-5") in
  let attr v := Reconfigure "items-per-page" None (Some v) in
  JS.parseInt nbsp_minus_5 = Some (-5)
  /\ in_domain (attr nbsp_minus_5) = false
  /\ in_domain (attr "-5"%string) = false
  /\ in_domain (attr "9007199254740993"%string) = false
  /\ in_domain (attr "9007199254740992"%string) = true
  /\ in_domain (attr "abc"%string) = true.
Proof. vm_compute. repeat split. Qed.

(** The product of 2.5 and 3 is a number that a double holds; the product
    of the double nearest to 1.7 and 10 is not. *)
Example exact_times_examples :
  JS.exact_times (5 # 2) 3 = true
  /\ JS.exact_times 4 3 = true
  /\ JS.exact_times (7656119366529843 # 4503599627370496) 10 = false
  /\ JS.exact_times (1 # 3) 3 = false.
Proof. vm_compute. repeat split. Qed.

(** What [JS.exact_times] gives for a page [1 <= x]: the start index
    [(x - 1) * n] and the end index [(x - 1) * n + n] are fractions
    [b / 2 ^ k] and [c / 2 ^ k] with [b] and [c] below [2 ^ 53] in absolute
    value and [k <= 52], which are numbers a double holds as they are. *)
Lemma exact_times_indices (x : Q) (n : Z) :
  (1 <= x)%Q -> JS.exact_times x n = true ->
  exists b c k : Z,
    0 <= k <= 52 /\ Z.abs b < 2 ^ 53 /\ Z.abs c < 2 ^ 53
    /\ ((x - 1) * inject_Z n == inject_Z b / inject_Z (2 ^ k))%Q
    /\ ((x - 1) * inject_Z n + inject_Z n == inject_Z c / inject_Z (2 ^ k))%Q.
Proof.
  intros Hx H. unfold JS.exact_times in H. cbv zeta in H.
  apply andb_true_iff in H as [H Hn]. apply andb_true_iff in H as [Hd Ha].
  apply Z.eqb_eq in Hd. apply Z.ltb_lt in Ha, Hn.
  pose proof (Qred_correct x) as Hred.
  destruct (Qred x) as [a d] eqn:E. cbn [Qnum Qden] in Hd, Ha, Hn.
  set (k := Z.log2 (Z.pos d)) in *.
  assert (Hk0 : 0 <= k) by apply Z.log2_nonneg.
  assert (Hda : Z.pos d <= a).
  { assert (Hx' : (1 <= a # d)%Q) by (rewrite Hred; exact Hx).
    unfold Qle in Hx'. simpl in Hx'. lia. }
  assert (Hk : k <= 52).
  { apply Z.nlt_ge. intros Hlt.
    assert (2 ^ 53 <= 2 ^ k) by (apply Z.pow_le_mono_r; lia). lia. }
  exists ((a - Z.pos d) * n), (a * n), k.
  split; [lia|]. split; [|split; [assumption|]].
  - rewrite !Z.abs_mul in *.
    assert (Z.abs (a - Z.pos d) <= Z.abs a) by lia.
    pose proof (Z.abs_nonneg n). nia.
  - rewrite <- Hd. rewrite <- Hred.
    assert (Hdq : ~ (inject_Z (Z.pos d) == 0)%Q).
    { unfold Qeq. simpl. lia. }
    split.
    + rewrite !inject_Z_mult. unfold Zminus. rewrite inject_Z_plus, inject_Z_opp.
      rewrite (Qmake_Qdiv a d). field. exact Hdq.
    + rewrite !inject_Z_mult.
      rewrite (Qmake_Qdiv a d). field. exact Hdq.
Qed.
